(** * NR_cofactors: the nuclear-receptor / cofactor complex classifier

    A shallow embedding of [classifier.py] (class [NRCofactorClassifier])
    and the properties of its scoring, pairing and decision steps.

    Conventions of the embedding:
    - a Python [float] is an IEEE 754 binary64 value, modelled by
      [spec_float] with the operations of [SpecFloat] at precision 53 and
      maximal exponent 1024 (round to nearest, ties to even);
    - a Python [str] is a [string]; the characters are those of [ascii],
      and [str.lower] acts on the letters [A-Z] only;
    - a value produced by [json.load] is a [json] tree, with Python's
      truth-value rules in [truthy];
    - the fields of a data class are not checked against their
      annotations: a chain identifier and a sequence are the [json]
      values found in the record, and [None] is [JNull];
    - an exception raised by the Python code is a value [Raise e] of the
      error monad [py];
    - the text Python prints for a [float], a [list] or a [dict] inside
      a reason is left to a parameter [repr] of the functions that build
      reasons. *)

From Stdlib Require Import ZArith List Bool Ascii String Lia.
From Stdlib Require Import Floats.SpecFloat.
From Stdlib Require Import Numbers.DecimalString.
Import ListNotations.

Local Open Scope string_scope.
Local Open Scope list_scope.

(* ================================================================== *)
(** * Binary64 floating point                                          *)
(* ================================================================== *)

Module PyFloat.

Definition prec : Z := 53.
Definition emax : Z := 1024.

Definition float := spec_float.

Definition add : float -> float -> float := SFadd prec emax.
Definition sub : float -> float -> float := SFsub prec emax.
Definition mul : float -> float -> float := SFmul prec emax.
Definition div : float -> float -> float := SFdiv prec emax.

(** [a < b], [a <= b], [a > b], [a >= b] of Python. *)
Definition ltb (a b : float) : bool := SFltb a b.
Definition leb (a b : float) : bool := SFleb a b.
Definition gtb (a b : float) : bool := SFltb b a.
Definition geb (a b : float) : bool := SFleb b a.

(** The integer [n] as a float. *)
Definition of_Z (n : Z) : float := binary_normalize prec emax n 0 false.

(** The decimal literal [n / 10^k], correctly rounded, as Python's
    parser reads it. *)
Definition decimal (n : Z) (k : nat) : float :=
  div (of_Z n) (of_Z (10 ^ Z.of_nat k)).

Definition f0_0 : float := S754_zero false.
Definition f0_3 : float := Eval vm_compute in decimal 3 1.
Definition f0_5 : float := Eval vm_compute in decimal 5 1.
Definition f0_8 : float := Eval vm_compute in decimal 8 1.
Definition f1_0 : float := Eval vm_compute in decimal 10 1.
Definition f2_0 : float := Eval vm_compute in decimal 20 1.

(** Python's [min(a, b)]: the first argument unless the second is
    strictly smaller. *)
Definition min (a b : float) : float := if ltb b a then b else a.

Definition is_nan (a : float) : bool :=
  match a with S754_nan => true | _ => false end.

Definition eq_dec (a b : float) : {a = b} + {a <> b}.
Proof.
  decide equality;
    try apply Bool.bool_dec; try apply Z.eq_dec; apply Pos.eq_dec.
Defined.

Definition eqb (a b : float) : bool := if eq_dec a b then true else false.

End PyFloat.

Import PyFloat.

Arguments PyFloat.add : simpl never.
Arguments PyFloat.sub : simpl never.
Arguments PyFloat.mul : simpl never.
Arguments PyFloat.div : simpl never.
Arguments PyFloat.min : simpl never.
Arguments PyFloat.ltb : simpl never.
Arguments PyFloat.leb : simpl never.
Arguments PyFloat.gtb : simpl never.
Arguments PyFloat.geb : simpl never.

(* ================================================================== *)
(** * Strings                                                          *)
(* ================================================================== *)

Module PyStr.

(** [c.lower()] for one character. *)
Definition lower_char (c : ascii) : ascii :=
  let n := nat_of_ascii c in
  if andb (Nat.leb 65 n) (Nat.leb n 90) then ascii_of_nat (n + 32) else c.

(** [s.lower()] *)
Fixpoint lower (s : string) : string :=
  match s with
  | EmptyString => EmptyString
  | String c s' => String (lower_char c) (lower s')
  end.

(** [hay.startswith(needle)] *)
Fixpoint startswith (needle hay : string) : bool :=
  match needle, hay with
  | EmptyString, _ => true
  | String _ _, EmptyString => false
  | String a n', String b h' => andb (Ascii.eqb a b) (startswith n' h')
  end.

(** [needle in hay] *)
Fixpoint contains (needle hay : string) : bool :=
  orb (startswith needle hay)
      (match hay with
       | EmptyString => false
       | String _ h' => contains needle h'
       end).

Definition newline : ascii := ascii_of_nat 10.

(** The pattern [L..LL] matched at the start of [s]: [.] is any
    character but a line feed. *)
Definition match_LxxLL_here (s : string) : bool :=
  match s with
  | String l1 (String x (String y (String l4 (String l5 _)))) =>
      Ascii.eqb l1 "L" && negb (Ascii.eqb x newline)
      && negb (Ascii.eqb y newline) && Ascii.eqb l4 "L" && Ascii.eqb l5 "L"
  | _ => false
  end.

(** [re.search('L..LL', s)] as a truth value. *)
Fixpoint re_search_LxxLL (s : string) : bool :=
  orb (match_LxxLL_here s)
      (match s with
       | EmptyString => false
       | String _ s' => re_search_LxxLL s'
       end).

(** [bool(s)] *)
Definition nonempty (s : string) : bool :=
  match s with EmptyString => false | _ => true end.

End PyStr.

Import PyStr.

(* ================================================================== *)
(** * Values read from a JSON file                                     *)
(* ================================================================== *)

(** What [json.load] returns: [None], [bool], [int], [float], [str],
    [list] and [dict] (the items of a [dict] in insertion order). *)
#[local] Unset Elimination Schemes.
Inductive json :=
| JNull
| JBool (b : bool)
| JInt (n : Z)
| JFloat (x : float)
| JStr (s : string)
| JArr (items : list json)
| JObj (members : list (string * json)).
#[local] Set Elimination Schemes.

(** [bool(v)] *)
Definition truthy (v : json) : bool :=
  match v with
  | JNull => false
  | JBool b => b
  | JInt n => negb (Z.eqb n 0)
  | JFloat x => match x with S754_zero _ => false | _ => true end
  | JStr s => nonempty s
  | JArr items => match items with [] => false | _ => true end
  | JObj members => match members with [] => false | _ => true end
  end.

(* ================================================================== *)
(** * The data classes                                                 *)
(* ================================================================== *)

(** A dataclass does not check the annotations of its fields when an
    instance is built.  [chain_id] and [entity_sequence] hold the values
    found in the record, whatever they are; [description] and
    [entity_type] are results of [str.lower], and so strings. *)
Record ChainInfo := mkChainInfo {
  chain_id : json;
  description : string;
  entity_type : string;
  entity_sequence : json
}.

(** [receptor_chain] and [cofactor_chain] are the [chain_id] of a chain,
    or [None], which is [JNull] here as in a record. *)
Record ClassificationResult := mkResult {
  pdb_id : string;
  is_nr_cofactor_complex : bool;
  receptor_chain : json;
  cofactor_chain : json;
  receptor_type : option string;
  cofactor_type : option string;
  confidence_score : float;
  reasons : list string
}.

(* ================================================================== *)
(** * The keyword tables of [__init__]                                 *)
(* ================================================================== *)

Definition nr_keywords : list string :=
  [ "nuclear receptor"; "steroid receptor"; "thyroid hormone receptor";
    "estrogen receptor"; "androgen receptor"; "glucocorticoid receptor";
    "mineralocorticoid receptor"; "progesterone receptor";
    "peroxisome proliferator-activated receptor"; "ppar";
    "retinoic acid receptor"; "retinoid x receptor"; "rar"; "rxr";
    "liver x receptor"; "lxr"; "farnesoid x receptor"; "fxr";
    "vitamin d receptor"; "vdr"; "thyroid hormone receptor"; "tr";
    "hepatocyte nuclear factor"; "hnf"; "coup-tf"; "nr2f";
    "testicular receptor"; "tr2"; "tr4"; "tailless"; "tlx";
    "photoreceptor cell-specific nuclear receptor"; "pnr";
    "dosage-sensitive sex reversal"; "dax1"; "short heterodimer partner";
    "shp" ].

Definition coactivator_keywords : list string :=
  [ "steroid receptor coactivator"; "src-1"; "src-2"; "src-3"; "src1";
    "src2"; "src3";
    "nuclear receptor coactivator"; "ncoa1"; "ncoa2"; "ncoa3"; "grip1";
    "tif2"; "actr";
    "creb-binding protein"; "cbp"; "p300"; "ep300";
    "peroxisome proliferator-activated receptor gamma coactivator";
    "pgc-1"; "pgc1";
    "pgc-1alpha"; "pgc-1beta"; "pgc1a"; "pgc1b";
    "mediator"; "trap"; "drip"; "arc"; "activator";
    "transcriptional intermediary factor"; "receptor-associated protein" ].

Definition corepressor_keywords : list string :=
  [ "nuclear receptor corepressor"; "ncor"; "smrt"; "cornr";
    "silencing mediator"; "corepressor"; "repressor";
    "alien"; "trip15"; "csx"; "hairless" ].

Definition generic_nr_terms : list string :=
  [ "nuclear receptor"; "steroid receptor" ].

(** [keyword in ['nuclear receptor', 'steroid receptor']] *)
Definition is_generic_nr (keyword : string) : bool :=
  existsb (String.eqb keyword) generic_nr_terms.

(* ================================================================== *)
(** * The scorers                                                      *)
(* ================================================================== *)

(** One turn of the loop of [score_nuclear_receptor]. *)
Definition nr_step (desc_lower : string) (acc : float * list string)
    (keyword : string) : float * list string :=
  let '(score, reasons) := acc in
  if contains keyword desc_lower then
    if is_generic_nr keyword then
      (add score f1_0, reasons ++ [("Generic NR term: " ++ keyword)%string])
    else
      (add score f0_8, reasons ++ [("Specific NR: " ++ keyword)%string])
  else acc.

Definition score_nuclear_receptor (description : string)
    : float * list string :=
  let desc_lower := lower description in
  let '(score, reasons) :=
    fold_left (nr_step desc_lower) nr_keywords (f0_0, []) in
  (min score f1_0, reasons).

(** One turn of a keyword loop of [score_cofactor]; [label] is the text
    the reason starts with. *)
Definition kw_step (label desc_lower : string) (acc : float * list string)
    (keyword : string) : float * list string :=
  let '(score, reasons) := acc in
  if contains keyword desc_lower then
    (add score f0_8, reasons ++ [(label ++ keyword)%string])
  else acc.

Definition motif_reason : string :=
  "Corepressor sequence motif 'LXXLL' found".

(** The state of [score_cofactor] after its two keyword loops:
    [coactivator_score], [corepressor_score] and [reasons]. *)
Definition keyword_totals (desc_lower : string)
    : float * float * list string :=
  let '(coactivator_score, reasons) :=
    fold_left (kw_step "Coactivator keyword: " desc_lower)
              coactivator_keywords (f0_0, []) in
  let '(corepressor_score, reasons) :=
    fold_left (kw_step "Corepressor keyword: " desc_lower)
              corepressor_keywords (f0_0, reasons) in
  (coactivator_score, corepressor_score, reasons).

(** The state of [score_cofactor] when it reaches its last [if], after
    the motif search. *)
Definition cofactor_totals (description sequence : string)
    : float * float * list string :=
  let desc_lower := lower description in
  let '(coactivator_score, corepressor_score, reasons) :=
    keyword_totals desc_lower in
  if nonempty sequence && re_search_LxxLL sequence then
    (add coactivator_score f0_5, corepressor_score,
     reasons ++ [motif_reason])
  else (coactivator_score, corepressor_score, reasons).

(** The last [if] of [score_cofactor]. *)
Definition cofactor_verdict (totals : float * float * list string)
    : float * string * list string :=
  let '(coactivator_score, corepressor_score, reasons) := totals in
  if gtb coactivator_score corepressor_score then
    (min coactivator_score f1_0, "coactivator", reasons)
  else if gtb corepressor_score f0_0 then
    (min corepressor_score f1_0, "corepressor", reasons)
  else (f0_0, "unknown", reasons).

Definition score_cofactor (description sequence : string)
    : float * string * list string :=
  cofactor_verdict (cofactor_totals description sequence).


(* ================================================================== *)
(** * Exceptions                                                       *)
(* ================================================================== *)

(** The ways a call can fail: the exceptions Python raises when a value
    has not the shape the code expects. *)
Inductive exn := AttributeError | TypeError.

Inductive py (A : Type) :=
| Return (a : A)
| Raise (e : exn).
Arguments Return {A} a.
Arguments Raise {A} e.

Definition bind {A B} (m : py A) (k : A -> py B) : py B :=
  match m with
  | Return a => k a
  | Raise e => Raise e
  end.

Notation "x <- m ;; k" := (bind m (fun x => k))
  (at level 61, m at next level, right associativity).

(** [for x in xs: acc = body(acc, x)], stopping at the first exception. *)
Fixpoint for_each {A S} (xs : list A) (body : S -> A -> py S) (acc : S)
    : py S :=
  match xs with
  | [] => Return acc
  | x :: xs' => acc' <- body acc x ;; for_each xs' body acc'
  end.

Fixpoint lookup (key : string) (members : list (string * json))
    : option json :=
  match members with
  | [] => None
  | (k, v) :: rest => if String.eqb key k then Some v else lookup key rest
  end.

(** [v.get(key, default)] *)
Definition get (v : json) (key : string) (default : json) : py json :=
  match v with
  | JObj members =>
      Return (match lookup key members with
              | Some x => x
              | None => default
              end)
  | _ => Raise AttributeError
  end.

(** [v.lower()] *)
Definition lower_method (v : json) : py string :=
  match v with
  | JStr s => Return (lower s)
  | _ => Raise AttributeError
  end.

Fixpoint chars (s : string) : list json :=
  match s with
  | EmptyString => []
  | String c s' => JStr (String c EmptyString) :: chars s'
  end.

(** The values [for x in v] runs through. *)
Definition iterate (v : json) : py (list json) :=
  match v with
  | JArr items => Return items
  | JStr s => Return (chars s)
  | JObj members => Return (map (fun kv => JStr (fst kv)) members)
  | _ => Raise TypeError
  end.

(* ================================================================== *)
(** * [load_pdb_data]                                                  *)
(* ================================================================== *)

(** The data directory: the JSON document stored under a path, [None]
    where [os.path.exists] is false.  Every file that exists is taken to
    hold a well-formed document. *)
Definition filesystem := string -> option json.

Fixpoint endswith_slash (s : string) : bool :=
  match s with
  | EmptyString => false
  | String c EmptyString => Ascii.eqb c "/"
  | String _ s' => endswith_slash s'
  end.

(** [os.path.join(a, b)] on a POSIX system. *)
Definition path_join (a b : string) : string :=
  if startswith "/" b then b
  else if negb (nonempty a) || endswith_slash a then (a ++ b)%string
  else (a ++ "/" ++ b)%string.

(** The warning printed for a missing file is not modelled. *)
Definition load_pdb_data (fs : filesystem) (pdb_id data_dir : string)
    : option json :=
  let file_path := path_join data_dir (pdb_id ++ ".json")%string in
  fs file_path.


(* ================================================================== *)
(** * [extract_chain_info]                                             *)
(* ================================================================== *)

(** The body of [for entity in ...]. *)
Definition extract_entity (chains : list ChainInfo) (entity : json)
    : py (list ChainInfo) :=
  container <- get entity "rcsb_polymer_entity_container_identifiers"
                   (JObj []) ;;
  chain_ids <- get container "auth_asym_ids" (JArr []) ;;
  if negb (truthy chain_ids) then Return chains
  else
    polymer_entity <- get entity "rcsb_polymer_entity" (JObj []) ;;
    raw_description <- get polymer_entity "pdbx_description" (JStr "") ;;
    description <- lower_method raw_description ;;
    entity_poly <- get entity "entity_poly" (JObj []) ;;
    raw_type <- get entity_poly "type" (JStr "") ;;
    entity_type <- lower_method raw_type ;;
    entity_poly' <- get entity "entity_poly" (JObj []) ;;
    entity_sequence <- get entity_poly' "pdbx_seq_one_letter_code_can"
                           (JStr "") ;;
    ids <- iterate chain_ids ;;
    for_each ids
      (fun chains chain_id =>
         Return (chains ++ [mkChainInfo chain_id description entity_type
                                        entity_sequence]))
      chains.

Definition extract_chain_info (data : json) : py (list ChainInfo) :=
  entry <- get data "entry" JNull ;;
  if negb (truthy entry) then Return []
  else
    polymer_entities <- get entry "polymer_entities" JNull ;;
    if negb (truthy polymer_entities) then Return []
    else
      entities <- iterate polymer_entities ;;
      for_each entities extract_entity [].

(* ================================================================== *)
(** * Formatting                                                       *)
(* ================================================================== *)

Definition Z_to_string (n : Z) : string :=
  NilZero.string_of_int (Z.to_int n).

(** [m * 2^e] rounded to the nearest integer, ties to even. *)
Definition round_half_even (m e : Z) : Z :=
  match e with
  | Zneg p =>
      let d := Z.pow 2 (Zpos p) in
      let q := Z.div m d in
      let r := Z.modulo m d in
      match Z.compare (2 * r) d with
      | Lt => q
      | Gt => (q + 1)%Z
      | Eq => if Z.even q then q else (q + 1)%Z
      end
  | _ => (m * Z.pow 2 e)%Z
  end.

(** [f"{x:.2f}"] *)
Definition format_2f (x : float) : string :=
  let sign (s : bool) := if s then "-" else "" in
  match x with
  | S754_nan => "nan"
  | S754_infinity s => (sign s ++ "inf")%string
  | S754_zero s => (sign s ++ "0.00")%string
  | S754_finite s m e =>
      let hundredths := round_half_even (Zpos m * 100) e in
      let frac := Z.modulo hundredths 100 in
      (sign s ++ Z_to_string (Z.div hundredths 100) ++ "."
         ++ (if Z.ltb frac 10 then "0" else "") ++ Z_to_string frac)%string
  end.


(* ================================================================== *)
(** * [classify_complex]                                               *)
(* ================================================================== *)

(** The dictionary [best_pair]; the key ["cofactor_type"] is absent until
    the first pair is stored. *)
Record BestPair := mkBestPair {
  receptor : option ChainInfo;
  cofactor : option ChainInfo;
  nr_score : float;
  cofactor_score : float;
  confidence : float;
  nr_reasons : list string;
  cofactor_reasons : list string;
  best_cofactor_type : option string
}.

Definition initial_best_pair : BestPair :=
  mkBestPair None None f0_0 f0_0 f0_0 [] [] None.

(** [score_cofactor] on the sequence a chain holds.  The keyword loops
    read the description only.  In [if sequence and re.search(...)] a
    value that is false ([None], [0], an empty list, ...) ends the test as
    the empty string does; a value that is true is given to [re.search],
    which raises [TypeError] unless it is a string. *)
Definition score_cofactor_of (description : string) (sequence : json)
    : py (float * string * list string) :=
  match sequence with
  | JStr s => Return (score_cofactor description s)
  | _ =>
      if truthy sequence then Raise TypeError
      else Return (score_cofactor description "")
  end.

(** The scores of one ordered pair: what the body of the inner loop
    computes for [receptor_candidate] and [cofactor_candidate], as the
    dictionary it would store. *)
Definition evaluate_pair (receptor_candidate cofactor_candidate : ChainInfo)
    : py BestPair :=
  let '(nr_score, nr_reasons) :=
    score_nuclear_receptor (description receptor_candidate) in
  scored <- score_cofactor_of (description cofactor_candidate)
                              (entity_sequence cofactor_candidate) ;;
  let '(cofactor_score, cofactor_type, cofactor_reasons) := scored in
  penalty <- score_cofactor_of (description receptor_candidate)
                               (entity_sequence receptor_candidate) ;;
  let '(penalty_score, _, _) := penalty in
  let nr_score := sub nr_score (mul penalty_score f0_5) in
  let confidence := div (add nr_score cofactor_score) f2_0 in
  Return (mkBestPair (Some receptor_candidate) (Some cofactor_candidate)
            nr_score cofactor_score confidence nr_reasons cofactor_reasons
            (Some cofactor_type)).

(** The body of the inner loop for [i <> j]. *)
Definition consider (best_pair : BestPair)
    (receptor_candidate cofactor_candidate : ChainInfo) : py BestPair :=
  candidate <- evaluate_pair receptor_candidate cofactor_candidate ;;
  Return (if gtb (confidence candidate) (confidence best_pair)
          then candidate else best_pair).

(** The two nested loops over [range(len(chains))]. *)
Definition pairing_search (chains : list ChainInfo) : py BestPair :=
  let n := List.length chains in
  for_each (seq 0 n)
    (fun best_pair i =>
       for_each (seq 0 n)
         (fun best_pair j =>
            if Nat.eqb i j then Return best_pair
            else
              match nth_error chains i, nth_error chains j with
              | Some receptor_candidate, Some cofactor_candidate =>
                  consider best_pair receptor_candidate cofactor_candidate
              | _, _ => Return best_pair
              end)
         best_pair)
    initial_best_pair.

(** [best_pair[...] >= 0.5 and best_pair[...] >= 0.3] *)
Definition passes_thresholds (best_pair : BestPair) : bool :=
  geb (nr_score best_pair) f0_5 && geb (cofactor_score best_pair) f0_3.

Definition failed_threshold_reason (best_pair : BestPair) : string :=
  ("Failed threshold check: NR_score(" ++ format_2f (nr_score best_pair)
    ++ ") >= 0.5, Cofactor_score(" ++ format_2f (cofactor_score best_pair)
    ++ ") >= 0.3")%string.

Definition data_not_available (pdb_id : string) : ClassificationResult :=
  mkResult pdb_id false JNull JNull None None f0_0 ["Data not available"].

Definition insufficient_chains (pdb_id : string) : ClassificationResult :=
  mkResult pdb_id false JNull JNull None None f0_0
           ["Insufficient number of chains"].

Section Classifier.

(** The text [str] gives for a [float], a [list] or a [dict], which the
    properties below do not depend on. *)
Variable repr : json -> string.

(** [f"{v}"] *)
Definition py_str (v : json) : string :=
  match v with
  | JNull => "None"
  | JBool true => "True"
  | JBool false => "False"
  | JInt n => Z_to_string n
  | JStr s => s
  | _ => repr v
  end.

(** [[f"<role> ({chain.chain_id}): " + r for r in rs]] under [if chain:];
    an instance of [ChainInfo] is true. *)
Definition prefix_reasons (role : string) (chain : option ChainInfo)
    (rs : list string) : list string :=
  match chain with
  | Some c =>
      map (fun r =>
             (role ++ " (" ++ py_str (chain_id c) ++ "): " ++ r)%string) rs
  | None => []
  end.

(** The part of [classify_complex] after the search. *)
Definition decide (pdb_id : string) (best_pair : BestPair)
    : ClassificationResult :=
  let is_complex := passes_thresholds best_pair in
  let all_reasons :=
    prefix_reasons "Receptor" (receptor best_pair) (nr_reasons best_pair)
    ++ prefix_reasons "Cofactor" (cofactor best_pair)
         (cofactor_reasons best_pair) in
  let all_reasons :=
    if negb is_complex && gtb (confidence best_pair) f0_0
    then all_reasons ++ [failed_threshold_reason best_pair]
    else all_reasons in
  mkResult pdb_id is_complex
    (match receptor best_pair with
     | Some chain => chain_id chain
     | None => JNull
     end)
    (match cofactor best_pair with
     | Some chain => chain_id chain
     | None => JNull
     end)
    (option_map description (receptor best_pair))
    (match cofactor best_pair with
     | Some _ => best_cofactor_type best_pair
     | None => None
     end)
    (confidence best_pair)
    all_reasons.

Definition classify_complex (fs : filesystem) (pdb_id data_dir : string)
    : py ClassificationResult :=
  match load_pdb_data fs pdb_id data_dir with
  | None => Return (data_not_available pdb_id)
  | Some data =>
      if negb (truthy data) then Return (data_not_available pdb_id)
      else
        chains <- extract_chain_info data ;;
        if Nat.ltb (List.length chains) 2
        then Return (insufficient_chains pdb_id)
        else
          best_pair <- pairing_search chains ;;
          Return (decide pdb_id best_pair)
  end.

Definition batch_classify (fs : filesystem) (pdb_ids : list string)
    (data_dir : string) : py (list ClassificationResult) :=
  for_each pdb_ids
    (fun results pdb_id =>
       result <- classify_complex fs pdb_id data_dir ;;
       Return (results ++ [result]))
    [].

End Classifier.

(* ================================================================== *)
(** * Facts about binary64 comparison                                  *)
(* ================================================================== *)

Section FloatOrder.

Remark compare_cont_Eq (p q : positive) :
  Pos.compare_cont Eq p q = Pos.compare p q.
Proof. reflexivity. Qed.

Ltac split_compares :=
  repeat match goal with
  | |- context [Z.compare ?a ?b] => destruct (Z.compare_spec a b); subst
  | H : context [Z.compare ?a ?b] |- _ =>
      destruct (Z.compare_spec a b); subst
  | |- context [Pos.compare ?a ?b] =>
      destruct (Pos.compare_spec a b); subst
  | H : context [Pos.compare ?a ?b] |- _ =>
      destruct (Pos.compare_spec a b); subst
  end.

Ltac by_float_cases :=
  unfold gtb, geb, ltb, leb, is_nan, SFltb, SFleb, SFcompare; intros;
  repeat match goal with
  | x : float |- _ => destruct x
  | x : spec_float |- _ => destruct x
  | b : bool |- _ => destruct b
  end;
  simpl in *; rewrite ?compare_cont_Eq in *;
  try congruence;
  split_compares; simpl in *; try congruence; try lia.

Lemma ltb_irrefl : forall a, ltb a a = false.
Proof. by_float_cases. Qed.

Lemma ltb_leb : forall a b, ltb a b = true -> leb a b = true.
Proof. by_float_cases. Qed.

Lemma leb_ltb_trans :
  forall a b c, leb a b = true -> ltb b c = true -> ltb a c = true.
Proof. by_float_cases. Qed.

Lemma ltb_trans :
  forall a b c, ltb a b = true -> ltb b c = true -> ltb a c = true.
Proof. intros a b c Hab. apply leb_ltb_trans, ltb_leb, Hab. Qed.

Lemma not_ltb_leb :
  forall a b, is_nan a = false -> is_nan b = false ->
              ltb b a = false -> leb a b = true.
Proof. by_float_cases. Qed.

Lemma leb_not_ltb : forall a b, leb a b = true -> ltb b a = false.
Proof. by_float_cases. Qed.

End FloatOrder.

(* ================================================================== *)
(** * Facts about substring search                                     *)
(* ================================================================== *)

Section Substrings.

Lemma startswith_spec (needle hay : string) :
  startswith needle hay = true <->
  exists post, hay = (needle ++ post)%string.
Proof.
  revert hay. induction needle as [|a n IH]; intros hay; simpl.
  - split; [intros _; now exists hay | reflexivity].
  - destruct hay as [|b h].
    + split; [discriminate | intros [post H]; discriminate].
    + rewrite andb_true_iff, Ascii.eqb_eq, IH. split.
      * intros [-> [post ->]]. now exists post.
      * intros [post H]. injection H as -> ->. split; [reflexivity|].
        now exists post.
Qed.

(** [needle in hay] holds exactly when [hay] is some text, then
    [needle], then some text. *)
Lemma contains_spec (needle hay : string) :
  contains needle hay = true <->
  exists pre post, hay = (pre ++ needle ++ post)%string.
Proof.
  induction hay as [|b h IH]; simpl.
  - rewrite orb_false_r, startswith_spec. split.
    + intros [post H]. now exists EmptyString, post.
    + intros [[|c pre] [post H]]; [now exists post | discriminate].
  - rewrite orb_true_iff, startswith_spec, IH. split.
    + intros [[post H] | [pre [post H]]].
      * now exists EmptyString, post.
      * exists (String b pre), post. simpl. now rewrite H.
    + intros [[|c pre] [post H]].
      * left. now exists post.
      * right. simpl in H. injection H as _ ->. now exists pre, post.
Qed.

(** A text with the five characters [L x y L L] in it, [x] and [y]
    not line feeds. *)
Definition has_LxxLL (s : string) : Prop :=
  exists pre x y post,
    s = (pre ++ String "L" (String x (String y
               (String "L" (String "L" post)))))%string
    /\ x <> newline /\ y <> newline.

Lemma match_LxxLL_here_spec (s : string) :
  match_LxxLL_here s = true <->
  exists x y post,
    s = String "L" (String x (String y (String "L" (String "L" post))))
    /\ x <> newline /\ y <> newline.
Proof.
  unfold match_LxxLL_here. split.
  - destruct s as [|l1 [|x [|y [|l4 [|l5 post]]]]]; try discriminate.
    rewrite !andb_true_iff, !negb_true_iff, !Ascii.eqb_eq, !Ascii.eqb_neq.
    intros [[[[-> Hx] Hy] ->] ->]. now exists x, y, post.
  - intros [x [y [post [-> [Hx Hy]]]]].
    rewrite !andb_true_iff, !negb_true_iff, !Ascii.eqb_eq, !Ascii.eqb_neq.
    auto.
Qed.

Lemma re_search_LxxLL_spec (s : string) :
  re_search_LxxLL s = true <-> has_LxxLL s.
Proof.
  unfold has_LxxLL. induction s as [|b s IH]; simpl.
  - split; [discriminate|].
    intros [[|c pre] [x [y [post [H _]]]]]; discriminate.
  - rewrite orb_true_iff, IH.
    change (match_LxxLL_here (String b s) = true \/
            (exists pre x y post,
               s = (pre ++ String "L" (String x (String y
                       (String "L" (String "L" post)))))%string
               /\ x <> newline /\ y <> newline)
            <-> exists pre x y post,
               String b s = (pre ++ String "L" (String x (String y
                       (String "L" (String "L" post)))))%string
               /\ x <> newline /\ y <> newline).
    rewrite match_LxxLL_here_spec. split.
    + intros [[x [y [post [H Hxy]]]] | [pre [x [y [post [H Hxy]]]]]].
      * exists EmptyString, x, y, post. now split.
      * exists (String b pre), x, y, post. simpl. now rewrite H.
    + intros [[|c pre] [x [y [post [H Hxy]]]]].
      * left. now exists x, y, post.
      * right. simpl in H. injection H as _ ->. now exists pre, x, y, post.
Qed.

Lemma has_LxxLL_nonempty (s : string) : has_LxxLL s -> nonempty s = true.
Proof.
  intros [[|c pre] [x [y [post [-> _]]]]]; reflexivity.
Qed.

End Substrings.

(* ================================================================== *)
(** * The keyword loops                                                *)
(* ================================================================== *)

(** The keywords of a table found in a description, in table order. *)
Definition matched (keywords : list string) (desc_lower : string)
    : list string :=
  filter (fun keyword => contains keyword desc_lower) keywords.

Definition nr_weight (keyword : string) : float :=
  if is_generic_nr keyword then f1_0 else f0_8.

Definition nr_reason (keyword : string) : string :=
  if is_generic_nr keyword then ("Generic NR term: " ++ keyword)%string
  else ("Specific NR: " ++ keyword)%string.

(** [x + w + ... + w], with [n] additions. *)
Definition add_times (n : nat) (w x : float) : float :=
  Nat.iter n (fun y => add y w) x.

Section KeywordLoops.

Variable desc_lower : string.

Lemma nr_scan (keywords : list string) (score : float)
    (reasons : list string) :
  fold_left (nr_step desc_lower) keywords (score, reasons) =
  (fold_left (fun x k => add x (nr_weight k))
             (matched keywords desc_lower) score,
   reasons ++ map nr_reason (matched keywords desc_lower)).
Proof.
  revert score reasons.
  induction keywords as [|k ks IH]; intros score reasons.
  - simpl. now rewrite app_nil_r.
  - cbn [fold_left matched filter]. unfold nr_step at 2.
    fold (matched ks desc_lower).
    destruct (contains k desc_lower).
    + assert (Hw : nr_weight k = if is_generic_nr k then f1_0 else f0_8)
        by reflexivity.
      assert (Hr : nr_reason k =
                   if is_generic_nr k
                   then ("Generic NR term: " ++ k)%string
                   else ("Specific NR: " ++ k)%string) by reflexivity.
      cbn [fold_left map]. rewrite Hw, Hr.
      destruct (is_generic_nr k); rewrite IH, <- app_assoc; reflexivity.
    + apply IH.
Qed.

Lemma kw_scan (label : string) (keywords : list string) (score : float)
    (reasons : list string) :
  fold_left (kw_step label desc_lower) keywords (score, reasons) =
  (add_times (List.length (matched keywords desc_lower)) f0_8 score,
   reasons ++ map (String.append label) (matched keywords desc_lower)).
Proof.
  revert score reasons.
  induction keywords as [|k ks IH]; intros score reasons.
  - simpl. now rewrite app_nil_r.
  - cbn [fold_left matched filter]. unfold kw_step at 2.
    fold (matched ks desc_lower).
    destruct (contains k desc_lower).
    + rewrite IH. cbn [List.length map]. rewrite <- app_assoc.
      unfold add_times. now rewrite Nat.iter_succ_r.
    + apply IH.
Qed.

Lemma matched_length (keywords : list string) :
  List.length (matched keywords desc_lower) <= List.length keywords.
Proof. apply filter_length_le. Qed.

Lemma matched_none (keywords : list string) :
  (forall k, In k keywords -> contains k desc_lower = false) ->
  matched keywords desc_lower = [].
Proof.
  intros H. induction keywords as [|k ks IH]; [reflexivity|]. simpl.
  rewrite (H k (or_introl eq_refl)). apply IH.
  intros k' Hk'. apply H. now right.
Qed.

Lemma weighted_sum_uniform (w : float) (ks : list string) (x : float) :
  (forall k, In k ks -> nr_weight k = w) ->
  fold_left (fun y k => add y (nr_weight k)) ks x =
  add_times (List.length ks) w x.
Proof.
  revert x. induction ks as [|k ks IH]; intros x H; [reflexivity|].
  cbn [fold_left List.length]. unfold add_times.
  rewrite Nat.iter_succ_r, (H k (or_introl eq_refl)). apply IH.
  intros k' Hk'. apply H. now right.
Qed.

End KeywordLoops.

(** [score_nuclear_receptor] by the keywords found. *)
Lemma score_nuclear_receptor_matched (description : string) :
  score_nuclear_receptor description =
  (min (fold_left (fun x k => add x (nr_weight k))
                  (matched nr_keywords (lower description)) f0_0) f1_0,
   map nr_reason (matched nr_keywords (lower description))).
Proof.
  unfold score_nuclear_receptor. now rewrite nr_scan.
Qed.

(** [keyword_totals] by the keywords found. *)
Lemma keyword_totals_matched (desc_lower : string) :
  keyword_totals desc_lower =
  (add_times (List.length (matched coactivator_keywords desc_lower))
             f0_8 f0_0,
   add_times (List.length (matched corepressor_keywords desc_lower))
             f0_8 f0_0,
   map (String.append "Coactivator keyword: ")
       (matched coactivator_keywords desc_lower)
   ++ map (String.append "Corepressor keyword: ")
        (matched corepressor_keywords desc_lower)).
Proof.
  unfold keyword_totals. now rewrite !kw_scan.
Qed.

(* ================================================================== *)
(** * The values a score can take                                      *)
(* ================================================================== *)

Definition member (x : float) (xs : list float) : bool :=
  existsb (PyFloat.eqb x) xs.

Lemma member_In (x : float) (xs : list float) :
  member x xs = true -> In x xs.
Proof.
  unfold member. rewrite existsb_exists. intros [y [Hy H]].
  unfold PyFloat.eqb in H. destruct (eq_dec x y); [now subst | discriminate].
Qed.

Definition nr_score_values : list float := [f0_0; f0_8; f1_0].
Definition cofactor_score_values : list float := [f0_0; f0_5; f0_8; f1_0].

(** The sum of [a] generic and [b] specific keyword weights, clamped. *)
Definition nr_clamped (a b : nat) : float :=
  min (add_times b f0_8 (add_times a f1_0 f0_0)) f1_0.

Lemma nr_clamped_values (a b : nat) :
  a <= 2 -> b <= 35 ->
  In (min (add_times b f0_8 (add_times a f1_0 f0_0)) f1_0) nr_score_values.
Proof.
  intros Ha Hb. change (In (nr_clamped a b) nr_score_values).
  apply member_In.
  assert (H : forallb (fun a => forallb (fun b =>
                member (nr_clamped a b) nr_score_values) (seq 0 36))
              (seq 0 3) = true) by (vm_compute; reflexivity).
  rewrite forallb_forall in H.
  specialize (H a). rewrite forallb_forall in H.
  apply H; apply in_seq; lia.
Qed.

Definition specific_nr_terms : list string := skipn 2 nr_keywords.

Lemma nr_keywords_split :
  nr_keywords = generic_nr_terms ++ specific_nr_terms.
Proof. reflexivity. Qed.

Lemma matched_app (ks1 ks2 : list string) (d : string) :
  matched (ks1 ++ ks2) d = matched ks1 d ++ matched ks2 d.
Proof. apply filter_app. Qed.

Lemma matched_nr_keywords (d : string) :
  matched nr_keywords d =
  matched generic_nr_terms d ++ matched specific_nr_terms d.
Proof. exact (matched_app generic_nr_terms specific_nr_terms d). Qed.

Lemma matched_weight_generic (d k : string) :
  In k (matched generic_nr_terms d) -> nr_weight k = f1_0.
Proof.
  unfold matched. intros Hk. apply filter_In in Hk as [Hk _].
  destruct Hk as [<- | [<- | []]]; reflexivity.
Qed.

Lemma matched_weight_specific (d k : string) :
  In k (matched specific_nr_terms d) -> nr_weight k = f0_8.
Proof.
  unfold matched. intros Hk. apply filter_In in Hk as [Hk _].
  assert (H : forallb (fun k => PyFloat.eqb (nr_weight k) f0_8)
                      specific_nr_terms = true)
    by (vm_compute; reflexivity).
  rewrite forallb_forall in H. specialize (H k Hk).
  unfold PyFloat.eqb in H.
  destruct (eq_dec (nr_weight k) f0_8); [assumption | discriminate].
Qed.

(** The running total of the nuclear-receptor scorer by the number of
    generic and of specific keywords found. *)
Lemma nr_total_counts (d : string) (x : float) :
  fold_left (fun y k => add y (nr_weight k)) (matched nr_keywords d) x =
  add_times (List.length (matched specific_nr_terms d)) f0_8
    (add_times (List.length (matched generic_nr_terms d)) f1_0 x).
Proof.
  rewrite matched_nr_keywords, fold_left_app.
  rewrite (weighted_sum_uniform f0_8 (matched specific_nr_terms d))
    by apply matched_weight_specific.
  rewrite (weighted_sum_uniform f1_0 (matched generic_nr_terms d))
    by apply matched_weight_generic.
  reflexivity.
Qed.

Lemma nr_counts_values (d : string) :
  In (min (add_times (List.length (matched specific_nr_terms d)) f0_8
             (add_times (List.length (matched generic_nr_terms d))
                        f1_0 f0_0)) f1_0)
     nr_score_values.
Proof.
  exact (nr_clamped_values _ _ (matched_length d generic_nr_terms)
                           (matched_length d specific_nr_terms)).
Qed.

(** The nuclear-receptor score is 0.0, 0.8 or 1.0. *)
Lemma score_nuclear_receptor_values (description : string) :
  In (fst (score_nuclear_receptor description)) nr_score_values.
Proof.
  rewrite score_nuclear_receptor_matched. cbn [fst].
  rewrite nr_total_counts. exact (nr_counts_values (lower description)).
Qed.

(** The verdict on [k] coactivator keywords, [m] corepressor keywords and
    the motif found or not. *)
Definition cofactor_outcome (k m : nat) (motif : bool) : float :=
  let ca := add_times k f0_8 f0_0 in
  let ca := if motif then add ca f0_5 else ca in
  fst (fst (cofactor_verdict (ca, add_times m f0_8 f0_0, []))).

Lemma cofactor_outcome_values (k m : nat) (motif : bool) :
  k <= 32 -> m <= 11 ->
  In (cofactor_outcome k m motif) cofactor_score_values.
Proof.
  intros Hk Hm. apply member_In.
  assert (H : forallb (fun k => forallb (fun m => forallb (fun motif =>
                member (cofactor_outcome k m motif) cofactor_score_values)
              [true; false]) (seq 0 12)) (seq 0 33) = true)
    by (vm_compute; reflexivity).
  rewrite forallb_forall in H.
  specialize (H k). rewrite forallb_forall in H.
  specialize (H ltac:(apply in_seq; lia) m). rewrite forallb_forall in H.
  apply H; [apply in_seq; lia|]. destruct motif; simpl; auto.
Qed.

Lemma cofactor_verdict_score_reasons (ca cr : float) (rs rs' : list string) :
  fst (fst (cofactor_verdict (ca, cr, rs))) =
  fst (fst (cofactor_verdict (ca, cr, rs'))).
Proof.
  unfold cofactor_verdict.
  destruct (gtb ca cr); [reflexivity|]. now destruct (gtb cr f0_0).
Qed.

(** The cofactor score is 0.0, 0.5, 0.8 or 1.0. *)
Lemma score_cofactor_values (description sequence : string) :
  In (fst (fst (score_cofactor description sequence)))
     cofactor_score_values.
Proof.
  unfold score_cofactor, cofactor_totals.
  rewrite keyword_totals_matched.
  set (d := lower description).
  set (motif := nonempty sequence && re_search_LxxLL sequence).
  pose proof (cofactor_outcome_values
                (List.length (matched coactivator_keywords d))
                (List.length (matched corepressor_keywords d)) motif
                (matched_length d coactivator_keywords)
                (matched_length d corepressor_keywords)) as H.
  unfold cofactor_outcome in H.
  destruct motif;
    now rewrite (cofactor_verdict_score_reasons _ _ _ []).
Qed.

(* ================================================================== *)
(** * The scores of one pair                                           *)
(* ================================================================== *)

(** The confidence of a pair from its three scores. *)
Definition pair_confidence_of (nr penalty cof : float) : float :=
  div (add (sub nr (mul penalty f0_5)) cof) f2_0.

(** The sequences on which the motif test does not raise: the strings
    and the values that are false. *)
Definition usable_sequence (sequence : json) : bool :=
  match sequence with
  | JStr _ => true
  | _ => negb (truthy sequence)
  end.

(** What the motif test reads of such a sequence: the string, and
    nothing of a false value. *)
Definition sequence_text (sequence : json) : string :=
  match sequence with
  | JStr s => s
  | _ => ""
  end.

Lemma score_cofactor_of_usable (d : string) (v : json) :
  usable_sequence v = true ->
  score_cofactor_of d v = Return (score_cofactor d (sequence_text v)).
Proof.
  intros H. destruct v; unfold usable_sequence in H;
    unfold score_cofactor_of, sequence_text; try reflexivity;
    apply negb_true_iff in H; rewrite H; reflexivity.
Qed.

Lemma score_cofactor_of_unusable (d : string) (v : json) :
  usable_sequence v = false ->
  score_cofactor_of d v = Raise TypeError.
Proof.
  intros H. destruct v; unfold usable_sequence in H;
    unfold score_cofactor_of; try discriminate;
    apply negb_false_iff in H; rewrite H; reflexivity.
Qed.

(** The dictionary the loop body builds for a pair of chains with usable
    sequences (see [evaluate_pair_usable]). *)
Definition pair_value (receptor_candidate cofactor_candidate : ChainInfo)
    : BestPair :=
  let '(nr_score, nr_reasons) :=
    score_nuclear_receptor (description receptor_candidate) in
  let '(cofactor_score, cofactor_type, cofactor_reasons) :=
    score_cofactor (description cofactor_candidate)
                   (sequence_text (entity_sequence cofactor_candidate)) in
  let '(penalty_score, _, _) :=
    score_cofactor (description receptor_candidate)
                   (sequence_text (entity_sequence receptor_candidate)) in
  let nr_score := sub nr_score (mul penalty_score f0_5) in
  let confidence := div (add nr_score cofactor_score) f2_0 in
  mkBestPair (Some receptor_candidate) (Some cofactor_candidate)
             nr_score cofactor_score confidence nr_reasons cofactor_reasons
             (Some cofactor_type).

Lemma evaluate_pair_usable (r c : ChainInfo) :
  usable_sequence (entity_sequence r) = true ->
  usable_sequence (entity_sequence c) = true ->
  evaluate_pair r c = Return (pair_value r c).
Proof.
  intros Hr Hc. unfold evaluate_pair, pair_value.
  rewrite (score_cofactor_of_usable _ _ Hr), (score_cofactor_of_usable _ _ Hc).
  destruct (score_nuclear_receptor (description r)) as [nr nrs].
  cbn [bind].
  destruct (score_cofactor (description c) (sequence_text (entity_sequence c)))
    as [[cs ct] crs].
  cbn [bind].
  destruct (score_cofactor (description r) (sequence_text (entity_sequence r)))
    as [[ps pt] prs].
  reflexivity.
Qed.

Lemma evaluate_pair_unusable (r c : ChainInfo) :
  usable_sequence (entity_sequence r) = false \/
  usable_sequence (entity_sequence c) = false ->
  evaluate_pair r c = Raise TypeError.
Proof.
  intros H. unfold evaluate_pair.
  destruct (score_nuclear_receptor (description r)) as [nr nrs].
  destruct (usable_sequence (entity_sequence c)) eqn:Hc.
  - destruct H as [Hr | H]; [|discriminate].
    rewrite (score_cofactor_of_usable _ _ Hc),
      (score_cofactor_of_unusable _ _ Hr).
    cbn [bind].
    destruct (score_cofactor (description c)
                             (sequence_text (entity_sequence c)))
      as [[cs ct] crs].
    reflexivity.
  - rewrite (score_cofactor_of_unusable _ _ Hc). reflexivity.
Qed.

(** [evaluate_pair] returns exactly on usable sequences, and raises
    [TypeError] otherwise. *)
Lemma evaluate_pair_returns (r c : ChainInfo) (v : BestPair) :
  evaluate_pair r c = Return v ->
  usable_sequence (entity_sequence r) = true /\
  usable_sequence (entity_sequence c) = true /\
  v = pair_value r c.
Proof.
  destruct (usable_sequence (entity_sequence r)) eqn:Hr;
    [destruct (usable_sequence (entity_sequence c)) eqn:Hc|].
  - rewrite (evaluate_pair_usable r c Hr Hc). intros H.
    injection H as <-. now split.
  - rewrite (evaluate_pair_unusable r c (or_intror Hc)). discriminate.
  - rewrite (evaluate_pair_unusable r c (or_introl Hr)). discriminate.
Qed.


Lemma pair_value_receptor (r c : ChainInfo) :
  receptor (pair_value r c) = Some r.
Proof.
  unfold pair_value.
  destruct (score_nuclear_receptor (description r)) as [nr nrs].
  destruct (score_cofactor (description c) (sequence_text (entity_sequence c)))
    as [[cs ct] crs].
  destruct (score_cofactor (description r) (sequence_text (entity_sequence r)))
    as [[ps pt] prs].
  reflexivity.
Qed.

Lemma pair_value_cofactor (r c : ChainInfo) :
  cofactor (pair_value r c) = Some c.
Proof.
  unfold pair_value.
  destruct (score_nuclear_receptor (description r)) as [nr nrs].
  destruct (score_cofactor (description c) (sequence_text (entity_sequence c)))
    as [[cs ct] crs].
  destruct (score_cofactor (description r) (sequence_text (entity_sequence r)))
    as [[ps pt] prs].
  reflexivity.
Qed.

Lemma pair_value_confidence (r c : ChainInfo) :
  confidence (pair_value r c) =
  pair_confidence_of
    (fst (score_nuclear_receptor (description r)))
    (fst (fst (score_cofactor (description r)
                              (sequence_text (entity_sequence r)))))
    (fst (fst (score_cofactor (description c)
                              (sequence_text (entity_sequence c))))).
Proof.
  unfold pair_value.
  destruct (score_nuclear_receptor (description r)) as [nr nrs].
  destruct (score_cofactor (description c) (sequence_text (entity_sequence c)))
    as [[cs ct] crs].
  destruct (score_cofactor (description r) (sequence_text (entity_sequence r)))
    as [[ps pt] prs].
  reflexivity.
Qed.

Lemma pair_confidence_of_not_nan (nr penalty cof : float) :
  In nr nr_score_values -> In penalty cofactor_score_values ->
  In cof cofactor_score_values ->
  is_nan (pair_confidence_of nr penalty cof) = false.
Proof.
  intros Hn Hp Hc.
  assert (H : forallb (fun nr => forallb (fun penalty => forallb (fun cof =>
                negb (is_nan (pair_confidence_of nr penalty cof)))
              cofactor_score_values) cofactor_score_values)
              nr_score_values = true) by (vm_compute; reflexivity).
  rewrite forallb_forall in H. specialize (H nr Hn).
  rewrite forallb_forall in H. specialize (H penalty Hp).
  rewrite forallb_forall in H. specialize (H cof Hc).
  now apply negb_true_iff.
Qed.

(** No pair has a NaN confidence. *)
Lemma confidence_not_nan (r c : ChainInfo) :
  is_nan (confidence (pair_value r c)) = false.
Proof.
  rewrite pair_value_confidence.
  apply pair_confidence_of_not_nan.
  - apply score_nuclear_receptor_values.
  - apply score_cofactor_values.
  - apply score_cofactor_values.
Qed.

(* ================================================================== *)
(** * Loops in the error monad                                         *)
(* ================================================================== *)

Section Loops.

Context {S : Type}.

Lemma for_each_app {A} (body : S -> A -> py S) (xs ys : list A) (s : S) :
  for_each (xs ++ ys) body s =
  (s' <- for_each xs body s ;; for_each ys body s').
Proof.
  revert s. induction xs as [|x xs IH]; intros s; [reflexivity|].
  cbn [app for_each]. destruct (body s x) as [s'|e]; cbn [bind].
  - apply IH.
  - reflexivity.
Qed.

Lemma for_each_ext_in {A} (f g : S -> A -> py S) (l : list A) (s : S) :
  (forall s x, In x l -> f s x = g s x) ->
  for_each l f s = for_each l g s.
Proof.
  revert s. induction l as [|x l IH]; intros s H; [reflexivity|].
  cbn [for_each]. rewrite (H s x (or_introl eq_refl)).
  destruct (g s x) as [s'|e]; cbn [bind]; [|reflexivity].
  apply IH. intros s'' y Hy. apply H. now right.
Qed.

Lemma for_each_through_map {A B} (h : B -> A) (f : S -> A -> py S)
    (l : list B) (s : S) :
  for_each (map h l) f s = for_each l (fun s y => f s (h y)) s.
Proof.
  revert s. induction l as [|y l IH]; intros s; [reflexivity|].
  cbn [map for_each]. destruct (f s (h y)) as [s'|e]; cbn [bind].
  - apply IH.
  - reflexivity.
Qed.

Lemma for_each_skipping {A} (keep : A -> bool) (f : S -> A -> py S)
    (l : list A) (s : S) :
  for_each l (fun s x => if keep x then f s x else Return s) s =
  for_each (filter keep l) f s.
Proof.
  revert s. induction l as [|x l IH]; intros s; [reflexivity|].
  cbn [for_each filter]. destruct (keep x).
  - cbn [for_each]. destruct (f s x) as [s'|e]; cbn [bind].
    + apply IH.
    + reflexivity.
  - cbn [bind]. apply IH.
Qed.

(** A body that never raises is a plain fold. *)
Lemma for_each_pure {A} (f : S -> A -> S) (l : list A) (s : S) :
  for_each l (fun s x => Return (f s x)) s = Return (fold_left f l s).
Proof.
  revert s. induction l as [|x l IH]; intros s; [reflexivity|].
  cbn [for_each fold_left bind]. apply IH.
Qed.

(** A loop that returns has run its body on every item, and the body
    returned each time. *)
Lemma for_each_returns_all {A} (body : S -> A -> py S) (l : list A)
    (s out : S) :
  for_each l body s = Return out ->
  forall x, In x l -> exists s1 s2, body s1 x = Return s2.
Proof.
  revert s. induction l as [|y l IH]; intros s H x Hx; [destruct Hx|].
  cbn [for_each] in H. destruct (body s y) as [s'|e] eqn:Hy;
    cbn [bind] in H; [|discriminate].
  destruct Hx as [<- | Hx].
  - now exists s, s'.
  - exact (IH s' H x Hx).
Qed.


End Loops.

Lemma for_each_nested {A B S} (f : S -> A -> B -> py S) (l1 : list A)
    (l2 : list B) (s : S) :
  for_each l1 (fun s x => for_each l2 (fun s y => f s x y) s) s =
  for_each (list_prod l1 l2) (fun s xy => f s (fst xy) (snd xy)) s.
Proof.
  revert s. induction l1 as [|x l1 IH]; intros s; [reflexivity|].
  cbn [for_each list_prod]. rewrite for_each_app, for_each_through_map.
  cbn [fst snd].
  destruct (for_each l2 (fun s y => f s x y) s) as [s'|e]; cbn [bind].
  - apply IH.
  - reflexivity.
Qed.

(* ================================================================== *)
(** * The pairing search as one scan                                   *)
(* ================================================================== *)

(** The chains with their positions: [enumerate(chains)]. *)
Definition indexed (chains : list ChainInfo) : list (nat * ChainInfo) :=
  combine (seq 0 (List.length chains)) chains.

Definition candidate_pair : Type := (nat * ChainInfo) * (nat * ChainInfo).

(** The ordered pairs [(i, chains[i]), (j, chains[j])] with [i <> j], in
    the order the two loops meet them. *)
Definition valid_pairs (chains : list ChainInfo) : list candidate_pair :=
  filter (fun p => negb (Nat.eqb (fst (fst p)) (fst (snd p))))
         (list_prod (indexed chains) (indexed chains)).

(** The loop body on a pair of [valid_pairs]. *)
Definition consider_pair (best_pair : BestPair) (p : candidate_pair)
    : py BestPair :=
  consider best_pair (snd (fst p)) (snd (snd p)).

(** The dictionary built for a pair of [valid_pairs]. *)
Definition evaluate (p : candidate_pair) : BestPair :=
  pair_value (snd (fst p)) (snd (snd p)).

Definition usable_pair (p : candidate_pair) : bool :=
  usable_sequence (entity_sequence (snd (fst p)))
  && usable_sequence (entity_sequence (snd (snd p))).

Section Indexed.

Lemma combine_seq_positions (l : list ChainInfo) (start : nat) :
  map fst (combine (seq start (List.length l)) l) =
  seq start (List.length l).
Proof.
  revert start. induction l as [|x l IH]; intros start; [reflexivity|].
  cbn [List.length seq combine map fst]. now rewrite IH.
Qed.

Lemma indexed_positions (chains : list ChainInfo) :
  map fst (indexed chains) = seq 0 (List.length chains).
Proof. apply combine_seq_positions. Qed.

Lemma combine_seq_nth_error (l : list ChainInfo) (start i : nat)
    (c : ChainInfo) :
  In (i, c) (combine (seq start (List.length l)) l) <->
  start <= i /\ nth_error l (i - start) = Some c.
Proof.
  revert start. induction l as [|x l IH]; intros start.
  - cbn. split; [tauto|]. intros [_ H].
    destruct (i - start); discriminate.
  - cbn [List.length seq combine In]. rewrite IH. split.
    + intros [H | [Hle H]].
      * injection H as <- <-. rewrite Nat.sub_diag. now split.
      * split; [lia|].
        replace (i - start) with (S (i - S start)) by lia. exact H.
    + intros [Hle H].
      destruct (Nat.eq_dec start i) as [<- | Hne].
      * rewrite Nat.sub_diag in H. injection H as <-. now left.
      * right. split; [lia|].
        replace (i - start) with (S (i - S start)) in H by lia. exact H.
Qed.

Lemma in_indexed (chains : list ChainInfo) (i : nat) (c : ChainInfo) :
  In (i, c) (indexed chains) <-> nth_error chains i = Some c.
Proof.
  unfold indexed. rewrite combine_seq_nth_error, Nat.sub_0_r.
  split; [tauto | split; [lia | assumption]].
Qed.

Lemma in_valid_pairs (chains : list ChainInfo) (i j : nat)
    (r c : ChainInfo) :
  In ((i, r), (j, c)) (valid_pairs chains) <->
  nth_error chains i = Some r /\ nth_error chains j = Some c /\ i <> j.
Proof.
  unfold valid_pairs.
  rewrite filter_In, in_prod_iff, !in_indexed. cbn [fst snd].
  rewrite negb_true_iff, Nat.eqb_neq. tauto.
Qed.

End Indexed.

(** The two loops visit [valid_pairs] in order. *)
Lemma pairing_search_scan (chains : list ChainInfo) :
  pairing_search chains =
  for_each (valid_pairs chains) consider_pair initial_best_pair.
Proof.
  unfold pairing_search, valid_pairs, consider_pair.
  rewrite <- for_each_skipping.
  rewrite <- (for_each_nested
                (fun s (x y : nat * ChainInfo) =>
                   if negb (Nat.eqb (fst x) (fst y))
                   then consider s (snd x) (snd y) else Return s)).
  rewrite <- indexed_positions, for_each_through_map.
  apply for_each_ext_in. intros s [i r] Hi. cbn [fst snd].
  rewrite for_each_through_map.
  apply for_each_ext_in. intros s' [j c] Hj. cbn [fst snd].
  apply in_indexed in Hi, Hj. rewrite Hi, Hj.
  destruct (Nat.eqb i j); cbn [negb]; reflexivity.
Qed.

(** Every chain of a list of two or more is in a pair of the scan. *)
Lemma chain_in_valid_pair (chains : list ChainInfo) (c : ChainInfo) :
  2 <= List.length chains -> In c chains ->
  exists p, In p (valid_pairs chains) /\ snd (fst p) = c.
Proof.
  intros Hlen Hin. apply In_nth_error in Hin as [k Hk].
  destruct chains as [|c0 [|c1 rest]]; cbn [List.length] in Hlen; try lia.
  destruct k as [|k].
  - exists ((0, c), (1, c1)). split; [|reflexivity].
    apply in_valid_pairs. split; [exact Hk|]. split; [reflexivity | lia].
  - exists ((S k, c), (0, c0)). split; [|reflexivity].
    apply in_valid_pairs. split; [exact Hk|]. split; [reflexivity | lia].
Qed.

Lemma usable_chains_pairs (chains : list ChainInfo) :
  Forall (fun c => usable_sequence (entity_sequence c) = true) chains ->
  Forall (fun p => usable_pair p = true) (valid_pairs chains).
Proof.
  intros Hall. rewrite Forall_forall in Hall. apply Forall_forall.
  intros [[i r] [j c]] Hin. apply in_valid_pairs in Hin as [Hi [Hj _]].
  apply nth_error_In in Hi, Hj. unfold usable_pair. cbn [fst snd].
  now rewrite (Hall r Hi), (Hall c Hj).
Qed.

Lemma usable_pairs_chains (chains : list ChainInfo) :
  2 <= List.length chains ->
  Forall (fun p => usable_pair p = true) (valid_pairs chains) ->
  Forall (fun c => usable_sequence (entity_sequence c) = true) chains.
Proof.
  intros Hlen Hall. rewrite Forall_forall in Hall. apply Forall_forall.
  intros c Hc.
  destruct (chain_in_valid_pair chains c Hlen Hc) as [p [Hp <-]].
  specialize (Hall p Hp). unfold usable_pair in Hall.
  now apply andb_true_iff in Hall.
Qed.

(* ================================================================== *)
(** * What the scan keeps                                              *)
(* ================================================================== *)

(** The confidence the loops compute for a pair. *)
Definition pair_confidence (p : candidate_pair) : float :=
  confidence (evaluate p).

(** [best] is the outcome of a scan of [pairs] that keeps the first pair
    of strictly highest confidence above 0: either no pair has a
    confidence above 0 and [best] is the starting dictionary, or [best]
    is what some pair [p] stores, [p] beats every pair before it and no
    pair after it beats [p]. *)
Definition first_maximum (pairs : list candidate_pair) (best : BestPair)
    : Prop :=
  (best = initial_best_pair /\
   Forall (fun q => leb (pair_confidence q) f0_0 = true) pairs)
  \/
  (exists pre p post,
     pairs = pre ++ p :: post /\
     best = evaluate p /\
     gtb (pair_confidence p) f0_0 = true /\
     Forall (fun q => ltb (pair_confidence q) (pair_confidence p) = true)
            pre /\
     Forall (fun q => leb (pair_confidence q) (pair_confidence p) = true)
            post).

Lemma evaluate_usable (p : candidate_pair) :
  usable_pair p = true ->
  evaluate_pair (snd (fst p)) (snd (snd p)) = Return (evaluate p).
Proof.
  unfold usable_pair. intros H. apply andb_true_iff in H as [Hr Hc].
  exact (evaluate_pair_usable _ _ Hr Hc).
Qed.

Lemma consider_pair_usable (best : BestPair) (p : candidate_pair) :
  usable_pair p = true ->
  consider_pair best p =
  Return (if gtb (pair_confidence p) (confidence best) then evaluate p
          else best).
Proof.
  intros H. unfold consider_pair, consider.
  rewrite (evaluate_usable p H). cbn [bind]. unfold pair_confidence.
  reflexivity.
Qed.

Lemma consider_pair_returns (best out : BestPair) (p : candidate_pair) :
  consider_pair best p = Return out -> usable_pair p = true.
Proof.
  unfold consider_pair, consider.
  destruct (evaluate_pair (snd (fst p)) (snd (snd p))) as [v|e] eqn:Hv;
    cbn [bind]; [|discriminate].
  intros _. apply evaluate_pair_returns in Hv as [Hr [Hc _]].
  unfold usable_pair. now rewrite Hr, Hc.
Qed.


Lemma pair_confidence_not_nan (p : candidate_pair) :
  is_nan (pair_confidence p) = false.
Proof. exact (confidence_not_nan (snd (fst p)) (snd (snd p))). Qed.

Lemma gtb_ltb (a b : float) : gtb a b = ltb b a.
Proof. reflexivity. Qed.

(** A scan that replaces what it holds by each item of strictly higher
    confidence, whatever the items are. *)
Section Scan.

Variables item held : Type.
Variable conf : item -> float.
Variable held_conf : held -> float.
Variable store : item -> held.
Variable start : held.

Hypothesis store_conf : forall x, held_conf (store x) = conf x.
Hypothesis start_conf : held_conf start = f0_0.
Hypothesis conf_not_nan : forall x, is_nan (conf x) = false.

Definition keep_higher (best : held) (x : item) : held :=
  if gtb (conf x) (held_conf best) then store x else best.

Definition scan_outcome (items : list item) (best : held) : Prop :=
  (best = start /\ Forall (fun q => leb (conf q) f0_0 = true) items)
  \/
  (exists pre p post,
     items = pre ++ p :: post /\
     best = store p /\
     gtb (conf p) f0_0 = true /\
     Forall (fun q => ltb (conf q) (conf p) = true) pre /\
     Forall (fun q => leb (conf q) (conf p) = true) post).

Lemma keep_higher_outcome (items : list item) :
  scan_outcome items (fold_left keep_higher items start).
Proof.
  induction items as [|x l IH] using rev_ind.
  - left. split; [reflexivity | constructor].
  - rewrite fold_left_app. cbn [fold_left]. unfold keep_higher at 1.
    destruct IH as [[Hstart Hall] | [pre [p [post [Hl [Hbest [Hpos [Hpre Hpost]]]]]]]].
    + rewrite Hstart, start_conf.
      destruct (gtb (conf x) f0_0) eqn:E.
      * right. exists l, x, []. rewrite gtb_ltb in E.
        split; [reflexivity|]. split; [reflexivity|].
        split; [now rewrite gtb_ltb|]. split; [|constructor].
        eapply Forall_impl; [|exact Hall]. cbn beta. intros q Hq.
        exact (leb_ltb_trans _ _ _ Hq E).
      * left. split; [reflexivity|]. rewrite gtb_ltb in E.
        apply Forall_app. split; [assumption|].
        constructor; [|constructor].
        exact (not_ltb_leb (conf x) f0_0 (conf_not_nan x) eq_refl E).
    + rewrite Hbest, store_conf. rewrite gtb_ltb in Hpos.
      destruct (gtb (conf x) (conf p)) eqn:E; rewrite gtb_ltb in E.
      * right. exists l, x, [].
        split; [reflexivity|]. split; [reflexivity|].
        split; [rewrite gtb_ltb; exact (ltb_trans _ _ _ Hpos E)|].
        split; [|constructor].
        rewrite Hl. apply Forall_app. split.
        -- eapply Forall_impl; [|exact Hpre]. cbn beta. intros q Hq.
           exact (ltb_trans _ _ _ Hq E).
        -- constructor; [exact E|].
           eapply Forall_impl; [|exact Hpost]. cbn beta. intros q Hq.
           exact (leb_ltb_trans _ _ _ Hq E).
      * right. exists pre, p, (post ++ [x]).
        split; [rewrite Hl, <- app_assoc; reflexivity|].
        split; [reflexivity|].
        split; [now rewrite gtb_ltb|]. split; [assumption|].
        apply Forall_app. split; [assumption|].
        constructor; [|constructor].
        exact (not_ltb_leb _ _ (conf_not_nan x) (conf_not_nan p) E).
Qed.

End Scan.

(** The loop body as a step of such a scan. *)
Definition keep_pair : BestPair -> candidate_pair -> BestPair :=
  keep_higher candidate_pair BestPair pair_confidence confidence evaluate.

Lemma consider_pair_keep (best : BestPair) (p : candidate_pair) :
  usable_pair p = true ->
  consider_pair best p = Return (keep_pair best p).
Proof. exact (consider_pair_usable best p). Qed.

Lemma keep_first_maximum (pairs : list candidate_pair) :
  first_maximum pairs (fold_left keep_pair pairs initial_best_pair).
Proof.
  exact (keep_higher_outcome candidate_pair BestPair pair_confidence
           confidence evaluate initial_best_pair
           (fun x => eq_refl) eq_refl pair_confidence_not_nan pairs).
Qed.

(** On usable pairs the scan returns, and what it returns is the plain
    fold of the loop body. *)
Lemma scan_usable (pairs : list candidate_pair) (best : BestPair) :
  Forall (fun p => usable_pair p = true) pairs ->
  for_each pairs consider_pair best = Return (fold_left keep_pair pairs best).
Proof.
  intros Hall. rewrite Forall_forall in Hall.
  rewrite (for_each_ext_in consider_pair
             (fun s p => Return (keep_pair s p))).
  - apply for_each_pure.
  - intros s p Hp. exact (consider_pair_keep s p (Hall p Hp)).
Qed.

(** A scan that returns met usable pairs only. *)
Lemma scan_returns_usable (pairs : list candidate_pair)
    (best out : BestPair) :
  for_each pairs consider_pair best = Return out ->
  Forall (fun p => usable_pair p = true) pairs.
Proof.
  intros H. apply Forall_forall. intros p Hp.
  destruct (for_each_returns_all _ _ _ _ H p Hp) as [s1 [s2 Hbody]].
  exact (consider_pair_returns s1 s2 p Hbody).
Qed.

(** The search returns when every sequence is usable. *)
Lemma pairing_search_usable (chains : list ChainInfo) :
  Forall (fun c => usable_sequence (entity_sequence c) = true) chains ->
  pairing_search chains =
  Return (fold_left keep_pair (valid_pairs chains) initial_best_pair).
Proof.
  intros Hall. rewrite pairing_search_scan.
  apply scan_usable, usable_chains_pairs, Hall.
Qed.

Lemma pairing_search_returns (chains : list ChainInfo) (best : BestPair) :
  pairing_search chains = Return best ->
  Forall (fun p => usable_pair p = true) (valid_pairs chains)
  /\ best = fold_left keep_pair (valid_pairs chains) initial_best_pair.
Proof.
  rewrite pairing_search_scan. intros H.
  pose proof (scan_returns_usable _ _ _ H) as Hall.
  split; [exact Hall|].
  rewrite (scan_usable _ _ Hall) in H. now injection H as <-.
Qed.

(** The search, when it returns, returns the first pair of highest
    positive confidence. *)
Lemma pairing_search_first_maximum (chains : list ChainInfo)
    (best : BestPair) :
  pairing_search chains = Return best ->
  first_maximum (valid_pairs chains) best.
Proof.
  intros H. apply pairing_search_returns in H as [_ ->].
  apply keep_first_maximum.
Qed.



(** With two chains or more the scan starts with chain 0 as receptor and
    chain 1 as cofactor. *)
Lemma valid_pairs_head (c0 c1 : ChainInfo) (rest : list ChainInfo) :
  exists others,
    valid_pairs (c0 :: c1 :: rest) = ((0, c0), (1, c1)) :: others.
Proof.
  unfold valid_pairs, indexed.
  cbn [List.length seq combine list_prod map app filter fst snd Nat.eqb negb].
  eexists. reflexivity.
Qed.

Lemma initial_fails_thresholds : passes_thresholds initial_best_pair = false.
Proof. vm_compute. reflexivity. Qed.

Lemma evaluate_receptor (p : candidate_pair) :
  receptor (evaluate p) = Some (snd (fst p)).
Proof. exact (pair_value_receptor (snd (fst p)) (snd (snd p))). Qed.

Lemma evaluate_cofactor (p : candidate_pair) :
  cofactor (evaluate p) = Some (snd (snd p)).
Proof. exact (pair_value_cofactor (snd (fst p)) (snd (snd p))). Qed.

Lemma first_maximum_receptor_none (pairs : list candidate_pair)
    (best : BestPair) :
  first_maximum pairs best ->
  (receptor best = None <->
   Forall (fun q => leb (pair_confidence q) f0_0 = true) pairs).
Proof.
  intros [[Hbest Hall] | [pre [p [post [Hpairs [Hbest [Hpos _]]]]]]].
  - split; [intros _; exact Hall|]. intros _. rewrite Hbest. reflexivity.
  - rewrite Hbest, evaluate_receptor. split; [discriminate|].
    intros Hall. rewrite Hpairs in Hall.
    apply Forall_app in Hall as [_ Hall]. apply Forall_inv in Hall.
    cbn beta in Hall. rewrite gtb_ltb in Hpos.
    rewrite (leb_not_ltb _ _ Hall) in Hpos. discriminate.
Qed.

Lemma first_maximum_cofactor_none (pairs : list candidate_pair)
    (best : BestPair) :
  first_maximum pairs best ->
  (cofactor best = None <-> receptor best = None).
Proof.
  intros [[Hbest _] | [pre [p [post [_ [Hbest _]]]]]]; rewrite Hbest.
  - split; reflexivity.
  - rewrite evaluate_receptor, evaluate_cofactor. split; discriminate.
Qed.

(* ================================================================== *)
(** * The scorers on given descriptions                                *)
(* ================================================================== *)

(** C3, as stated, fails: "steroid receptor coactivator" holds two
    keywords of the coactivator table, the whole phrase and "activator",
    so the score without a sequence is 1.6 clamped to 1.0 and not 0.8. *)
Lemma score_cofactor_src_is_not_0_8 :
  fst (fst (score_cofactor "steroid receptor coactivator" "")) <> f0_8.
Proof. vm_compute. discriminate. Qed.

(** C3, amended: for the description "steroid receptor coactivator" the
    cofactor scorer returns subtype "coactivator" with score exactly 1.0
    and two keyword reasons when the sequence is empty; with the sequence
    "MKLLELLAS" the score is exactly 1.0 again and the reasons are the
    same two followed by one motif reason. *)
Theorem score_cofactor_src_example :
  score_cofactor "steroid receptor coactivator" "" =
    (f1_0, "coactivator",
     ["Coactivator keyword: steroid receptor coactivator";
      "Coactivator keyword: activator"])
  /\ score_cofactor "steroid receptor coactivator" "MKLLELLAS" =
    (f1_0, "coactivator",
     ["Coactivator keyword: steroid receptor coactivator";
      "Coactivator keyword: activator";
      motif_reason]).
Proof. split; vm_compute; reflexivity. Qed.

(** C4, as stated, fails: "estrogen receptor" holds the keyword
    "estrogen receptor" and, inside "estrogen", the keyword "tr"; the
    score is 1.6 clamped to 1.0 and two reasons are recorded. *)
Lemma score_nuclear_receptor_estrogen_is_not_0_8 :
  ~ (fst (score_nuclear_receptor "estrogen receptor") = f0_8 /\
     List.length (snd (score_nuclear_receptor "estrogen receptor")) = 1).
Proof. vm_compute. intros [H _]. discriminate. Qed.

(** C4, amended: for the description "estrogen receptor" the
    nuclear-receptor scorer returns a score of exactly 1.0 and two
    reasons, one for the keyword "estrogen receptor" and one for "tr". *)
Theorem score_nuclear_receptor_estrogen_example :
  score_nuclear_receptor "estrogen receptor" =
    (f1_0, ["Specific NR: estrogen receptor"; "Specific NR: tr"]).
Proof. vm_compute. reflexivity. Qed.

(* ================================================================== *)
(** * The motif, the tie and the empty match                           *)
(* ================================================================== *)

(** C5: when the sequence holds a match of [L..LL], the state of the
    cofactor scorer before its verdict is the state after the keyword
    loops with 0.5 added to the coactivator total, the corepressor total
    unchanged and one motif reason appended, whatever keywords the
    description holds. *)
Theorem motif_adds_to_coactivator (description sequence : string)
    (coactivator_score corepressor_score : float) (reasons : list string) :
  has_LxxLL sequence ->
  keyword_totals (lower description) =
    (coactivator_score, corepressor_score, reasons) ->
  cofactor_totals description sequence =
    (add coactivator_score f0_5, corepressor_score,
     reasons ++ [motif_reason])
  /\ score_cofactor description sequence =
     cofactor_verdict (add coactivator_score f0_5, corepressor_score,
                       reasons ++ [motif_reason]).
Proof.
  intros Hmotif Hkw.
  assert (H : cofactor_totals description sequence =
              (add coactivator_score f0_5, corepressor_score,
               reasons ++ [motif_reason])).
  { unfold cofactor_totals. rewrite Hkw.
    rewrite (has_LxxLL_nonempty _ Hmotif).
    apply re_search_LxxLL_spec in Hmotif. now rewrite Hmotif. }
  split; [exact H|]. unfold score_cofactor. now rewrite H.
Qed.

Lemma motif_adds_to_coactivator_witness :
  cofactor_totals "nuclear receptor corepressor" "MKLLELLAS" =
    (add f0_0 f0_5, add (add (add f0_0 f0_8) f0_8) f0_8,
     ["Corepressor keyword: nuclear receptor corepressor";
      "Corepressor keyword: corepressor";
      "Corepressor keyword: repressor"] ++ [motif_reason])
  /\ score_cofactor "nuclear receptor corepressor" "MKLLELLAS" =
     cofactor_verdict
       (add f0_0 f0_5, add (add (add f0_0 f0_8) f0_8) f0_8,
        ["Corepressor keyword: nuclear receptor corepressor";
         "Corepressor keyword: corepressor";
         "Corepressor keyword: repressor"] ++ [motif_reason]).
Proof.
  apply (motif_adds_to_coactivator
           "nuclear receptor corepressor" "MKLLELLAS").
  - apply re_search_LxxLL_spec. vm_compute. reflexivity.
  - vm_compute. reflexivity.
Defined.

(** C6: when the coactivator and corepressor totals are equal and above
    0, the cofactor scorer returns the subtype "corepressor" with the
    corepressor total clamped to 1.0 as score. *)
Theorem tie_resolves_to_corepressor (description sequence : string)
    (coactivator_score corepressor_score : float) (reasons : list string) :
  cofactor_totals description sequence =
    (coactivator_score, corepressor_score, reasons) ->
  coactivator_score = corepressor_score ->
  gtb corepressor_score f0_0 = true ->
  score_cofactor description sequence =
    (min corepressor_score f1_0, "corepressor", reasons).
Proof.
  intros Htotals Htie Hpos.
  unfold score_cofactor. rewrite Htotals. unfold cofactor_verdict.
  subst coactivator_score. unfold gtb at 1.
  change (SFltb corepressor_score corepressor_score)
    with (ltb corepressor_score corepressor_score).
  now rewrite ltb_irrefl, Hpos.
Qed.

Lemma tie_resolves_to_corepressor_witness :
  score_cofactor "cbp ncor" "" =
    (min f0_8 f1_0, "corepressor",
     ["Coactivator keyword: cbp"; "Corepressor keyword: ncor"]).
Proof.
  apply (tie_resolves_to_corepressor "cbp ncor" "" f0_8 f0_8).
  - vm_compute. reflexivity.
  - reflexivity.
  - vm_compute. reflexivity.
Defined.

(** C7, as stated, fails for the cofactor scorer: a description without
    any cofactor keyword and a sequence with the motif give the score 0.5
    and one reason. *)
Lemma no_keyword_cofactor_score_not_zero :
  ~ (forall description sequence : string,
       (forall k, In k (coactivator_keywords ++ corepressor_keywords) ->
                  contains k (lower description) = false) ->
       fst (fst (score_cofactor description sequence)) = f0_0 /\
       snd (score_cofactor description sequence) = []).
Proof.
  intros H. specialize (H "kinase" "MKLLELLAS").
  assert (Hnone : forall k,
             In k (coactivator_keywords ++ corepressor_keywords) ->
             contains k (lower "kinase") = false).
  { intros k Hk. apply negb_true_iff. revert k Hk. apply forallb_forall.
    vm_compute. reflexivity. }
  destruct (H Hnone) as [Hscore _]. vm_compute in Hscore. discriminate.
Qed.

(** C7, amended: when the lowercased description holds no keyword of the
    nuclear-receptor table, the nuclear-receptor scorer returns exactly
    0.0 and no reason; when it holds no keyword of the coactivator and
    corepressor tables and the sequence is empty or has no match of
    [L..LL], the cofactor scorer returns exactly 0.0, "unknown" and no
    reason. *)
Theorem no_keyword_scores_zero (description sequence : string) :
  ((forall k, In k nr_keywords -> contains k (lower description) = false) ->
   score_nuclear_receptor description = (f0_0, []))
  /\
  ((forall k, In k (coactivator_keywords ++ corepressor_keywords) ->
              contains k (lower description) = false) ->
   nonempty sequence && re_search_LxxLL sequence = false ->
   score_cofactor description sequence = (f0_0, "unknown", [])).
Proof.
  split.
  - intros Hnone. rewrite score_nuclear_receptor_matched.
    now rewrite (matched_none _ _ Hnone).
  - intros Hnone Hmotif. unfold score_cofactor, cofactor_totals.
    rewrite keyword_totals_matched, Hmotif.
    rewrite !matched_none
      by (intros k Hk; apply Hnone, in_or_app; auto).
    reflexivity.
Qed.

Lemma no_keyword_scores_zero_witness :
  score_nuclear_receptor "Protein Kinase" = (f0_0, [])
  /\ score_cofactor "Protein Kinase" "MKV" = (f0_0, "unknown", []).
Proof.
  destruct (no_keyword_scores_zero "Protein Kinase" "MKV") as [Hnr Hco].
  split.
  - apply Hnr. intros k Hk. apply negb_true_iff. revert k Hk.
    apply forallb_forall. vm_compute. reflexivity.
  - apply Hco.
    + intros k Hk. apply negb_true_iff. revert k Hk.
      apply forallb_forall. vm_compute. reflexivity.
    + vm_compute. reflexivity.
Defined.

(* ================================================================== *)
(** * Example records                                                  *)
(* ================================================================== *)

(** One polymer entity as the data files give it, with the values [ids]
    as its chain identifiers and the value [sequence] as its sequence. *)
Definition entity_record (ids : list json) (description : string)
    (sequence : json) : json :=
  JObj [ ("rcsb_polymer_entity_container_identifiers",
          JObj [("auth_asym_ids", JArr ids)]);
         ("rcsb_polymer_entity", JObj [("pdbx_description", JStr description)]);
         ("entity_poly",
          JObj [("type", JStr "polypeptide(L)");
                ("pdbx_seq_one_letter_code_can", sequence)]) ].

Definition record_of (entities : list json) : json :=
  JObj [("entry", JObj [("polymer_entities", JArr entities)])].

(** A receptor on chain A and a coactivator peptide on chain B. *)
Definition complex_record : json :=
  record_of [ entity_record [JStr "A"] "Estrogen receptor" (JStr "MKV");
              entity_record [JStr "B"] "Nuclear receptor coactivator 2"
                            (JStr "KHKILHRLLQDSS") ].

(** The same complex, the sequence of the receptor being [null]. *)
Definition null_sequence_record : json :=
  record_of [ entity_record [JStr "A"] "Estrogen receptor" JNull;
              entity_record [JStr "B"] "Nuclear receptor coactivator 2"
                            (JStr "KHKILHRLLQDSS") ].

Definition null_sequence_chains : list ChainInfo :=
  [ mkChainInfo (JStr "A") "estrogen receptor" "polypeptide(l)" JNull;
    mkChainInfo (JStr "B") "nuclear receptor coactivator 2" "polypeptide(l)"
                (JStr "KHKILHRLLQDSS") ].

(** The same complex, the identifier of the receptor chain being
    [null]. *)
Definition null_id_record : json :=
  record_of [ entity_record [JNull] "Estrogen receptor" (JStr "MKV");
              entity_record [JStr "B"] "Nuclear receptor coactivator 2"
                            (JStr "KHKILHRLLQDSS") ].

(** The same complex, both entities naming their chain "A". *)
Definition repeated_id_record : json :=
  record_of [ entity_record [JStr "A"] "Estrogen receptor" (JStr "MKV");
              entity_record [JStr "A"] "Nuclear receptor coactivator 2"
                            (JStr "KHKILHRLLQDSS") ].

(** A record with a single chain, whose sequence is [null]. *)
Definition single_chain_record : json :=
  record_of [ entity_record [JStr "A"] "Estrogen receptor" JNull ].

(** Two chains without any keyword or motif. *)
Definition plain_chains : list ChainInfo :=
  [ mkChainInfo (JStr "A") "lysozyme" "polypeptide(l)" (JStr "MKV");
    mkChainInfo (JStr "B") "insulin" "polypeptide(l)" (JStr "GIV") ].

(** A data directory with one file. *)
Definition one_file (name : string) (content : json) : filesystem :=
  fun path => if String.eqb path name then Some content else None.

(** The chain identifiers of the examples are strings or [null]: [repr]
    is not called on them, and a constant stands for it. *)
Definition no_repr (v : json) : string := "".

(* ================================================================== *)
(** * The early returns                                                *)
(* ================================================================== *)

Section EarlyReturns.

Variable repr : json -> string.

(** C9: when the loaded record is a non-empty value and fewer than two
    chains are extracted from it, [classify_complex] returns the fixed
    result: not a complex, confidence 0.0, the single reason
    "Insufficient number of chains", no chain and no type.  The result is
    built before the loops of the search, whatever the chain holds as its
    sequence. *)
Theorem insufficient_chains_result (fs : filesystem)
    (pdb_id data_dir : string) (data : json) (chains : list ChainInfo) :
  load_pdb_data fs pdb_id data_dir = Some data ->
  truthy data = true ->
  extract_chain_info data = Return chains ->
  List.length chains < 2 ->
  classify_complex repr fs pdb_id data_dir =
    Return (mkResult pdb_id false JNull JNull None None f0_0
                     ["Insufficient number of chains"]).
Proof.
  intros Hload Htruthy Hextract Hlen.
  unfold classify_complex. rewrite Hload, Htruthy. cbn [negb].
  rewrite Hextract. cbn [bind].
  apply Nat.ltb_lt in Hlen. now rewrite Hlen.
Qed.

(** C10: when the value loaded for the record is falsy (an empty mapping,
    an empty list, [null], 0, ...), [classify_complex] returns the fixed
    result of the unavailable record: not a complex, confidence 0.0, the
    single reason "Data not available", no chain and no type; the chains
    are not extracted. *)
Theorem falsy_record_is_unavailable (fs : filesystem)
    (pdb_id data_dir : string) (data : json) :
  load_pdb_data fs pdb_id data_dir = Some data ->
  truthy data = false ->
  classify_complex repr fs pdb_id data_dir =
    Return (mkResult pdb_id false JNull JNull None None f0_0
                     ["Data not available"]).
Proof.
  intros Hload Hfalsy. unfold classify_complex.
  now rewrite Hload, Hfalsy.
Qed.

(** A missing file gives the same result. *)
Lemma missing_record_is_unavailable (fs : filesystem)
    (pdb_id data_dir : string) :
  load_pdb_data fs pdb_id data_dir = None ->
  classify_complex repr fs pdb_id data_dir =
    Return (data_not_available pdb_id).
Proof. intros H. unfold classify_complex. now rewrite H. Qed.

End EarlyReturns.

Lemma insufficient_chains_result_witness :
  classify_complex no_repr (one_file "data/1ABC.json" single_chain_record)
                   "1ABC" "data" =
    Return (mkResult "1ABC" false JNull JNull None None f0_0
                     ["Insufficient number of chains"]).
Proof.
  apply (insufficient_chains_result no_repr
           (one_file "data/1ABC.json" single_chain_record) "1ABC" "data"
           single_chain_record
           [mkChainInfo (JStr "A") "estrogen receptor" "polypeptide(l)"
                        JNull]).
  - reflexivity.
  - reflexivity.
  - reflexivity.
  - cbn [List.length]. lia.
Defined.

Lemma falsy_record_is_unavailable_witness :
  classify_complex no_repr (one_file "data/1ABC.json" (JObj []))
                   "1ABC" "data" =
    Return (mkResult "1ABC" false JNull JNull None None f0_0
                     ["Data not available"]).
Proof.
  apply (falsy_record_is_unavailable no_repr
           (one_file "data/1ABC.json" (JObj [])) "1ABC" "data" (JObj []));
    reflexivity.
Defined.

(** The empty mapping has no chain: past the first test it would be
    reported as a record with too few chains. *)
Example empty_mapping_has_no_chain :
  extract_chain_info (JObj []) = Return [].
Proof. reflexivity. Qed.

(** A single chain whose sequence is a number is reported in the same
    way: its sequence is never read. *)
Example single_chain_with_number_sequence :
  classify_complex no_repr
    (one_file "data/1ABC.json"
       (record_of [entity_record [JStr "A"] "Estrogen receptor" (JInt 5)]))
    "1ABC" "data" =
    Return (mkResult "1ABC" false JNull JNull None None f0_0
                     ["Insufficient number of chains"]).
Proof. reflexivity. Qed.

(* ================================================================== *)
(** * The decision                                                     *)
(* ================================================================== *)

Section Decision.

Variable repr : json -> string.

Section DecideFields.

Variables (id : string) (best : BestPair).

Lemma decide_flag :
  is_nr_cofactor_complex (decide repr id best) = passes_thresholds best.
Proof. reflexivity. Qed.

Lemma decide_confidence :
  confidence_score (decide repr id best) = confidence best.
Proof. reflexivity. Qed.

Lemma decide_receptor_chain (c : ChainInfo) :
  receptor best = Some c ->
  receptor_chain (decide repr id best) = chain_id c.
Proof. intros H. cbn [decide receptor_chain]. now rewrite H. Qed.

Lemma decide_cofactor_chain (c : ChainInfo) :
  cofactor best = Some c ->
  cofactor_chain (decide repr id best) = chain_id c.
Proof. intros H. cbn [decide cofactor_chain]. now rewrite H. Qed.


Lemma decide_cofactor_type (c : ChainInfo) :
  cofactor best = Some c ->
  cofactor_type (decide repr id best) = best_cofactor_type best.
Proof. intros H. cbn [decide cofactor_type]. now rewrite H. Qed.

Lemma passes_thresholds_unfold :
  passes_thresholds best =
  geb (nr_score best) f0_5 && geb (cofactor_score best) f0_3.
Proof. reflexivity. Qed.

Lemma decide_reasons_passed :
  passes_thresholds best = true ->
  reasons (decide repr id best) =
    prefix_reasons repr "Receptor" (receptor best) (nr_reasons best)
    ++ prefix_reasons repr "Cofactor" (cofactor best)
         (cofactor_reasons best).
Proof. intros H. cbn [decide reasons]. now rewrite H. Qed.

Lemma decide_reasons_failed :
  passes_thresholds best = false ->
  gtb (confidence best) f0_0 = true ->
  reasons (decide repr id best) =
    (prefix_reasons repr "Receptor" (receptor best) (nr_reasons best)
     ++ prefix_reasons repr "Cofactor" (cofactor best)
          (cofactor_reasons best))
    ++ [failed_threshold_reason best].
Proof. intros H Hpos. cbn [decide reasons]. now rewrite H, Hpos. Qed.

End DecideFields.

Lemma classify_complex_searched (fs : filesystem)
    (pdb_id data_dir : string) (data : json) (chains : list ChainInfo)
    (best : BestPair) :
  load_pdb_data fs pdb_id data_dir = Some data ->
  truthy data = true ->
  extract_chain_info data = Return chains ->
  2 <= List.length chains ->
  pairing_search chains = Return best ->
  classify_complex repr fs pdb_id data_dir =
    Return (decide repr pdb_id best).
Proof.
  intros Hload Htruthy Hextract Hlen Hsearch.
  unfold classify_complex. rewrite Hload, Htruthy. cbn [negb].
  rewrite Hextract. cbn [bind].
  assert (H : Nat.ltb (List.length chains) 2 = false)
    by (apply Nat.ltb_ge; exact Hlen).
  rewrite H, Hsearch. reflexivity.
Qed.

(** The paths of [classify_complex] that return a result. *)
Lemma classify_complex_cases (fs : filesystem) (pdb_id data_dir : string)
    (result : ClassificationResult) :
  classify_complex repr fs pdb_id data_dir = Return result ->
  result = data_not_available pdb_id
  \/ result = insufficient_chains pdb_id
  \/ exists data chains best,
       load_pdb_data fs pdb_id data_dir = Some data /\
       extract_chain_info data = Return chains /\
       2 <= List.length chains /\
       pairing_search chains = Return best /\
       result = decide repr pdb_id best.
Proof.
  unfold classify_complex. intros Hresult.
  destruct (load_pdb_data fs pdb_id data_dir) as [data|] eqn:Hload;
    [|injection Hresult as <-; now left].
  destruct (truthy data); cbn [negb] in Hresult;
    [|injection Hresult as <-; now left].
  destruct (extract_chain_info data) as [chains|e] eqn:Hextract;
    cbn [bind] in Hresult; [|discriminate].
  destruct (Nat.ltb (List.length chains) 2) eqn:Hlen;
    [injection Hresult as <-; right; now left|].
  destruct (pairing_search chains) as [best|e] eqn:Hsearch;
    cbn [bind] in Hresult; [|discriminate].
  injection Hresult as <-.
  right. right. exists data, chains, best. apply Nat.ltb_ge in Hlen.
  split; [reflexivity|]. split; [exact Hextract|]. split; [exact Hlen|].
  split; [exact Hsearch | reflexivity].
Qed.

(** C1: for a record with two extracted chains or more, whose sequences
    are strings or false values, [classify_complex] returns a result,
    every ordered pair of distinct chains is scored, and the flag of the
    result is true exactly when the pairing kept by the search (the first
    one of highest positive confidence, or the starting dictionary) has a
    penalised receptor score of at least 0.5 and a cofactor score of at
    least 0.3. *)
Theorem complex_iff_thresholds (fs : filesystem)
    (pdb_id data_dir : string) (data : json) (chains : list ChainInfo) :
  load_pdb_data fs pdb_id data_dir = Some data ->
  truthy data = true ->
  extract_chain_info data = Return chains ->
  2 <= List.length chains ->
  Forall (fun c => usable_sequence (entity_sequence c) = true) chains ->
  exists result best,
    classify_complex repr fs pdb_id data_dir = Return result /\
    pairing_search chains = Return best /\
    Forall (fun p => evaluate_pair (snd (fst p)) (snd (snd p))
                     = Return (evaluate p))
           (valid_pairs chains) /\
    first_maximum (valid_pairs chains) best /\
    is_nr_cofactor_complex result =
      (geb (nr_score best) f0_5 && geb (cofactor_score best) f0_3).
Proof.
  intros Hload Htruthy Hextract Hlen Husable.
  pose proof (pairing_search_usable chains Husable) as Hsearch.
  exists (decide repr pdb_id
            (fold_left keep_pair (valid_pairs chains) initial_best_pair)),
         (fold_left keep_pair (valid_pairs chains) initial_best_pair).
  split; [exact (classify_complex_searched fs pdb_id data_dir data chains _
                   Hload Htruthy Hextract Hlen Hsearch)|].
  split; [exact Hsearch|].
  split.
  { eapply Forall_impl; [|exact (usable_chains_pairs chains Husable)].
    intros p Hp. exact (evaluate_usable p Hp). }
  split; [apply keep_first_maximum|].
  rewrite decide_flag. apply passes_thresholds_unfold.
Qed.

(** A result that is returned past the chain count has the same flag:
    the search returned, so every sequence was usable. *)
Lemma returned_flag_is_thresholds (fs : filesystem)
    (pdb_id data_dir : string) (data : json) (chains : list ChainInfo)
    (result : ClassificationResult) :
  load_pdb_data fs pdb_id data_dir = Some data ->
  truthy data = true ->
  extract_chain_info data = Return chains ->
  2 <= List.length chains ->
  classify_complex repr fs pdb_id data_dir = Return result ->
  Forall (fun c => usable_sequence (entity_sequence c) = true) chains
  /\ exists best,
       pairing_search chains = Return best /\
       is_nr_cofactor_complex result =
         (geb (nr_score best) f0_5 && geb (cofactor_score best) f0_3).
Proof.
  intros Hload Htruthy Hextract Hlen Hresult.
  assert (Hlt : Nat.ltb (List.length chains) 2 = false)
    by (apply Nat.ltb_ge; exact Hlen).
  unfold classify_complex in Hresult.
  rewrite Hload, Htruthy in Hresult. cbn [negb] in Hresult.
  rewrite Hextract in Hresult. cbn [bind] in Hresult.
  rewrite Hlt in Hresult.
  destruct (pairing_search chains) as [best|e] eqn:Hsearch;
    cbn [bind] in Hresult; [|discriminate].
  injection Hresult as <-. split.
  - apply (usable_pairs_chains chains Hlen).
    exact (proj1 (pairing_search_returns chains best Hsearch)).
  - exists best. split; [reflexivity|].
    rewrite decide_flag. apply passes_thresholds_unfold.
Qed.

Lemma nth_error_chain_ids (chains : list ChainInfo) (i j : nat)
    (ci cj : ChainInfo) :
  NoDup (map chain_id chains) ->
  nth_error chains i = Some ci -> nth_error chains j = Some cj ->
  i <> j -> chain_id ci <> chain_id cj.
Proof.
  intros Hnodup Hi Hj Hne Heq. apply Hne.
  rewrite NoDup_nth_error in Hnodup. apply Hnodup.
  - rewrite length_map. apply nth_error_Some. congruence.
  - rewrite !nth_error_map, Hi, Hj. cbn. now rewrite Heq.
Qed.

(** C2, amended: whenever a returned result has its flag set, the
    receptor chain and the cofactor chain are the identifiers of two
    chains at different positions of the chain list of the record.  The
    identifiers are the values the record gives: they are not null when
    no chain of the list has a null identifier, and they differ when no
    identifier occurs twice in the list. *)
Theorem complex_has_two_chains (fs : filesystem)
    (pdb_id data_dir : string) (result : ClassificationResult) :
  classify_complex repr fs pdb_id data_dir = Return result ->
  is_nr_cofactor_complex result = true ->
  exists data chains i j ci cj,
    load_pdb_data fs pdb_id data_dir = Some data /\
    extract_chain_info data = Return chains /\
    nth_error chains i = Some ci /\
    nth_error chains j = Some cj /\
    i <> j /\
    receptor_chain result = chain_id ci /\
    cofactor_chain result = chain_id cj /\
    (Forall (fun c => chain_id c <> JNull) chains ->
     receptor_chain result <> JNull /\ cofactor_chain result <> JNull) /\
    (NoDup (map chain_id chains) ->
     receptor_chain result <> cofactor_chain result).
Proof.
  intros Hresult Hflag.
  destruct (classify_complex_cases _ _ _ _ Hresult)
    as [-> | [-> | [data [chains [best [Hload [Hextract [_ [Hsearch ->]]]]]]]]];
    try discriminate.
  rewrite decide_flag in Hflag.
  destruct (pairing_search_first_maximum chains best Hsearch)
    as [[Hinit _] | [pre [[[i ci] [j cj]] [post [Hpairs [Hbest _]]]]]].
  - rewrite Hinit, initial_fails_thresholds in Hflag. discriminate.
  - assert (Hin : In ((i, ci), (j, cj)) (valid_pairs chains))
      by (rewrite Hpairs; apply in_elt).
    apply in_valid_pairs in Hin as [Hi [Hj Hne]].
    assert (Hr : receptor best = Some ci)
      by (rewrite Hbest; apply evaluate_receptor).
    assert (Hc : cofactor best = Some cj)
      by (rewrite Hbest; apply evaluate_cofactor).
    exists data, chains, i, j, ci, cj.
    rewrite (decide_receptor_chain pdb_id best ci Hr).
    rewrite (decide_cofactor_chain pdb_id best cj Hc).
    split; [exact Hload|]. split; [exact Hextract|].
    split; [exact Hi|]. split; [exact Hj|]. split; [exact Hne|].
    split; [reflexivity|]. split; [reflexivity|]. split.
    + intros Hall. rewrite Forall_forall in Hall. split.
      * apply Hall. exact (nth_error_In _ _ Hi).
      * apply Hall. exact (nth_error_In _ _ Hj).
    + intros Hnodup.
      exact (nth_error_chain_ids chains i j ci cj Hnodup Hi Hj Hne).
Qed.

End Decision.

Lemma complex_iff_thresholds_witness :
  exists result best,
    classify_complex no_repr (one_file "data/1ABC.json" null_sequence_record)
                     "1ABC" "data" = Return result /\
    pairing_search null_sequence_chains = Return best /\
    Forall (fun p => evaluate_pair (snd (fst p)) (snd (snd p))
                     = Return (evaluate p))
           (valid_pairs null_sequence_chains) /\
    first_maximum (valid_pairs null_sequence_chains) best /\
    is_nr_cofactor_complex result =
      (geb (nr_score best) f0_5 && geb (cofactor_score best) f0_3).
Proof.
  apply (complex_iff_thresholds no_repr
           (one_file "data/1ABC.json" null_sequence_record) "1ABC" "data"
           null_sequence_record null_sequence_chains).
  - reflexivity.
  - reflexivity.
  - reflexivity.
  - cbn [List.length null_sequence_chains]. lia.
  - repeat constructor.
Defined.

(** The record with a [null] sequence is classified as the complex it
    would be with an empty sequence. *)
Example null_sequence_is_classified :
  classify_complex no_repr (one_file "data/1ABC.json" null_sequence_record)
                   "1ABC" "data" =
    Return (mkResult "1ABC" true (JStr "A") (JStr "B")
              (Some "estrogen receptor") (Some "coactivator") f1_0
              ["Receptor (A): Specific NR: estrogen receptor";
               "Receptor (A): Specific NR: tr";
               "Cofactor (B): Coactivator keyword: nuclear receptor coactivator";
               "Cofactor (B): Coactivator keyword: activator";
               "Cofactor (B): Corepressor sequence motif 'LXXLL' found"]).
Proof. vm_compute. reflexivity. Qed.

(** C2, as stated, fails.  A chain identifier is stored as the record
    gives it.  With [null] as the identifier of the receptor chain the
    flag is set and the receptor chain of the result is null; with the
    same identifier on both chains the flag is set and the two chain
    fields are equal. *)
Lemma complex_with_null_or_repeated_chain :
  classify_complex no_repr (one_file "data/1ABC.json" null_id_record)
                   "1ABC" "data" =
    Return (mkResult "1ABC" true JNull (JStr "B")
              (Some "estrogen receptor") (Some "coactivator") f1_0
              ["Receptor (None): Specific NR: estrogen receptor";
               "Receptor (None): Specific NR: tr";
               "Cofactor (B): Coactivator keyword: nuclear receptor coactivator";
               "Cofactor (B): Coactivator keyword: activator";
               "Cofactor (B): Corepressor sequence motif 'LXXLL' found"])
  /\ classify_complex no_repr
       (one_file "data/1ABC.json" repeated_id_record) "1ABC" "data" =
    Return (mkResult "1ABC" true (JStr "A") (JStr "A")
              (Some "estrogen receptor") (Some "coactivator") f1_0
              ["Receptor (A): Specific NR: estrogen receptor";
               "Receptor (A): Specific NR: tr";
               "Cofactor (A): Coactivator keyword: nuclear receptor coactivator";
               "Cofactor (A): Coactivator keyword: activator";
               "Cofactor (A): Corepressor sequence motif 'LXXLL' found"]).
Proof. split; vm_compute; reflexivity. Qed.

Lemma complex_has_two_chains_witness :
  exists data chains i j ci cj,
    load_pdb_data (one_file "data/1ABC.json" complex_record) "1ABC" "data"
      = Some data /\
    extract_chain_info data = Return chains /\
    nth_error chains i = Some ci /\
    nth_error chains j = Some cj /\
    i <> j /\
    JStr "A" = chain_id ci /\
    JStr "B" = chain_id cj /\
    (Forall (fun c => chain_id c <> JNull) chains ->
     JStr "A" <> JNull /\ JStr "B" <> JNull) /\
    (NoDup (map chain_id chains) -> JStr "A" <> JStr "B").
Proof.
  apply (complex_has_two_chains no_repr
           (one_file "data/1ABC.json" complex_record) "1ABC" "data"
           (mkResult "1ABC" true (JStr "A") (JStr "B")
              (Some "estrogen receptor") (Some "coactivator") f1_0
              ["Receptor (A): Specific NR: estrogen receptor";
               "Receptor (A): Specific NR: tr";
               "Cofactor (B): Coactivator keyword: nuclear receptor coactivator";
               "Cofactor (B): Coactivator keyword: activator";
               "Cofactor (B): Corepressor sequence motif 'LXXLL' found"])).
  - vm_compute. reflexivity.
  - reflexivity.
Defined.

(* ================================================================== *)
(** * The first pair, ties and the empty outcome                       *)
(* ================================================================== *)

(** C8, as stated, fails: for two chains without any keyword or motif the
    first pair of the scan has confidence 0.0, it is not stored, and the
    search ends with the starting dictionary although pairs exist. *)
Lemma first_pair_not_always_kept :
  2 <= List.length plain_chains
  /\ (exists p others,
        valid_pairs plain_chains = p :: others /\
        evaluate_pair (snd (fst p)) (snd (snd p)) = Return (evaluate p) /\
        consider_pair initial_best_pair p = Return initial_best_pair /\
        evaluate p <> initial_best_pair)
  /\ pairing_search plain_chains = Return initial_best_pair.
Proof.
  split; [cbn; lia|]. split.
  - exists ((0, mkChainInfo (JStr "A") "lysozyme" "polypeptide(l)"
                            (JStr "MKV")),
            (1, mkChainInfo (JStr "B") "insulin" "polypeptide(l)"
                            (JStr "GIV"))).
    eexists. split; [reflexivity|].
    split; [vm_compute; reflexivity|].
    split; vm_compute; [reflexivity | discriminate].
  - vm_compute. reflexivity.
Qed.

(** C8, amended: over a record with two chains or more, whose sequences
    are strings or false values, the search starts from a dictionary of
    confidence 0.0 and runs through the ordered pairs in scan order,
    scoring each of them; the first pair, chain 0 as receptor and chain 1
    as cofactor, is stored when its confidence is above 0 and leaves the
    starting dictionary in place otherwise; the search returns the first
    pair, in scan order, of highest confidence above 0 (a later pair of
    equal confidence does not replace it); and receptor and cofactor are
    both null exactly when every pair has a confidence of at most 0. *)
Theorem pairing_search_keeps_first_maximum (chains : list ChainInfo) :
  2 <= List.length chains ->
  Forall (fun c => usable_sequence (entity_sequence c) = true) chains ->
  exists best,
    pairing_search chains = Return best
    /\ confidence initial_best_pair = f0_0
    /\ pairing_search chains =
       for_each (valid_pairs chains) consider_pair initial_best_pair
    /\ Forall (fun p => evaluate_pair (snd (fst p)) (snd (snd p))
                        = Return (evaluate p))
              (valid_pairs chains)
    /\ (exists first others,
          valid_pairs chains = first :: others /\
          nth_error chains 0 = Some (snd (fst first)) /\
          nth_error chains 1 = Some (snd (snd first)) /\
          consider_pair initial_best_pair first =
            Return (if gtb (pair_confidence first) f0_0 then evaluate first
                    else initial_best_pair))
    /\ first_maximum (valid_pairs chains) best
    /\ (receptor best = None /\ cofactor best = None
        <-> Forall (fun q => leb (pair_confidence q) f0_0 = true)
                   (valid_pairs chains)).
Proof.
  intros Hlen Husable.
  pose proof (usable_chains_pairs chains Husable) as Hpairs.
  exists (fold_left keep_pair (valid_pairs chains) initial_best_pair).
  split; [exact (pairing_search_usable chains Husable)|].
  split; [reflexivity|].
  split; [apply pairing_search_scan|].
  split.
  { eapply Forall_impl; [|exact Hpairs]. intros p Hp.
    exact (evaluate_usable p Hp). }
  split.
  { destruct chains as [|c0 [|c1 rest]]; cbn [List.length] in Hlen;
      try lia.
    destruct (valid_pairs_head c0 c1 rest) as [others Hhead].
    exists ((0, c0), (1, c1)), others.
    split; [exact Hhead|]. split; [reflexivity|]. split; [reflexivity|].
    rewrite Hhead in Hpairs. apply Forall_inv in Hpairs.
    exact (consider_pair_usable initial_best_pair _ Hpairs). }
  pose proof (keep_first_maximum (valid_pairs chains)) as Hmax.
  split; [exact Hmax|].
  rewrite <- (first_maximum_receptor_none _ _ Hmax).
  pose proof (first_maximum_cofactor_none _ _ Hmax) as Hco.
  tauto.
Qed.

Lemma pairing_search_keeps_first_maximum_witness :
  exists best,
    pairing_search null_sequence_chains = Return best
    /\ confidence initial_best_pair = f0_0
    /\ pairing_search null_sequence_chains =
       for_each (valid_pairs null_sequence_chains) consider_pair
                initial_best_pair
    /\ Forall (fun p => evaluate_pair (snd (fst p)) (snd (snd p))
                        = Return (evaluate p))
              (valid_pairs null_sequence_chains)
    /\ (exists first others,
          valid_pairs null_sequence_chains = first :: others /\
          nth_error null_sequence_chains 0 = Some (snd (fst first)) /\
          nth_error null_sequence_chains 1 = Some (snd (snd first)) /\
          consider_pair initial_best_pair first =
            Return (if gtb (pair_confidence first) f0_0 then evaluate first
                    else initial_best_pair))
    /\ first_maximum (valid_pairs null_sequence_chains) best
    /\ (receptor best = None /\ cofactor best = None
        <-> Forall (fun q => leb (pair_confidence q) f0_0 = true)
                   (valid_pairs null_sequence_chains)).
Proof.
  apply (pairing_search_keeps_first_maximum null_sequence_chains).
  - cbn [null_sequence_chains List.length]. lia.
  - repeat constructor.
Defined.

(** Two pairs of equal confidence: the earlier one in scan order stays. *)
Example tie_keeps_first_pair :
  let a := mkChainInfo (JStr "A") "estrogen receptor" "" (JStr "") in
  let b := mkChainInfo (JStr "B") "estrogen receptor" "" (JStr "") in
  pair_confidence ((0, a), (1, b)) = pair_confidence ((1, b), (0, a))
  /\ pairing_search [a; b] = Return (evaluate ((0, a), (1, b))).
Proof. vm_compute. split; reflexivity. Qed.

(* ================================================================== *)
(** * The scorers by the number of keywords found                      *)
(* ================================================================== *)

Section BoundedChecks.

Lemma check_counts2 (P : nat -> nat -> bool) (A B : nat) :
  forallb (fun a => forallb (P a) (seq 0 (S B))) (seq 0 (S A)) = true ->
  forall a b, a <= A -> b <= B -> P a b = true.
Proof.
  intros H a b Ha Hb. rewrite forallb_forall in H.
  specialize (H a ltac:(apply in_seq; lia)).
  rewrite forallb_forall in H. apply H. apply in_seq. lia.
Qed.

Lemma check_counts3 (P : nat -> nat -> bool -> bool) (A B : nat) :
  forallb (fun a => forallb (fun b => P a b true && P a b false)
                            (seq 0 (S B))) (seq 0 (S A)) = true ->
  forall a b m, a <= A -> b <= B -> P a b m = true.
Proof.
  intros H a b m Ha Hb.
  pose proof (check_counts2 (fun a b => P a b true && P a b false)
                            A B H a b Ha Hb) as Hab.
  cbn beta in Hab. apply andb_true_iff in Hab as [Ht Hf].
  destruct m; assumption.
Qed.

Lemma check_values3 (P : float -> float -> float -> bool)
    (xs ys zs : list float) :
  forallb (fun x => forallb (fun y => forallb (P x y) zs) ys) xs = true ->
  forall x y z, In x xs -> In y ys -> In z zs -> P x y z = true.
Proof.
  intros H x y z Hx Hy Hz. rewrite forallb_forall in H.
  specialize (H x Hx). rewrite forallb_forall in H.
  specialize (H y Hy). rewrite forallb_forall in H. exact (H z Hz).
Qed.

End BoundedChecks.

Lemma eqb_true_eq (a b : float) : PyFloat.eqb a b = true -> a = b.
Proof.
  unfold PyFloat.eqb. destruct (eq_dec a b); [trivial | discriminate].
Qed.

Lemma eqb_false_neq (a b : float) : PyFloat.eqb a b = false -> a <> b.
Proof.
  unfold PyFloat.eqb. destruct (eq_dec a b); [discriminate | trivial].
Qed.

(** The nuclear-receptor scorer seen through the number [a] of generic
    and [b] of specific keywords found: its score is their clamped sum
    and it gives one reason for each. *)
Lemma score_nuclear_receptor_counts (description : string) :
  exists a b,
    a <= 2 /\ b <= 35 /\
    a = List.length (matched generic_nr_terms (lower description)) /\
    b = List.length (matched specific_nr_terms (lower description)) /\
    fst (score_nuclear_receptor description) =
      min (add_times b f0_8 (add_times a f1_0 f0_0)) f1_0 /\
    List.length (snd (score_nuclear_receptor description)) = a + b.
Proof.
  exists (List.length (matched generic_nr_terms (lower description))),
         (List.length (matched specific_nr_terms (lower description))).
  split; [exact (matched_length _ generic_nr_terms)|].
  split; [exact (matched_length _ specific_nr_terms)|].
  split; [reflexivity|]. split; [reflexivity|].
  rewrite score_nuclear_receptor_matched. cbn [fst snd].
  split; [now rewrite nr_total_counts|].
  now rewrite length_map, matched_nr_keywords, length_app.
Qed.

(** The two totals of the cofactor scorer by the number [k] of
    coactivator and [m] of corepressor keywords found. *)
Definition coactivator_total (k : nat) (motif : bool) : float :=
  if motif then add (add_times k f0_8 f0_0) f0_5
  else add_times k f0_8 f0_0.

Definition corepressor_total (m : nat) : float := add_times m f0_8 f0_0.

Definition motif_found (sequence : string) : bool :=
  nonempty sequence && re_search_LxxLL sequence.

Lemma cofactor_totals_counts (description sequence : string) :
  exists k m reasons,
    k <= 32 /\ m <= 11 /\
    cofactor_totals description sequence =
      (coactivator_total k (motif_found sequence), corepressor_total m,
       reasons).
Proof.
  exists (List.length (matched coactivator_keywords (lower description))),
         (List.length (matched corepressor_keywords (lower description))).
  unfold cofactor_totals. rewrite keyword_totals_matched.
  unfold coactivator_total, corepressor_total, motif_found.
  destruct (nonempty sequence && re_search_LxxLL sequence);
    eexists;
    (split; [exact (matched_length _ coactivator_keywords)|]);
    (split; [exact (matched_length _ corepressor_keywords)|]);
    reflexivity.
Qed.

(** Score and subtype of the verdict for given counts. *)
Definition verdict_score (k m : nat) (motif : bool) : float :=
  fst (fst (cofactor_verdict
              (coactivator_total k motif, corepressor_total m, []))).

Definition verdict_label (k m : nat) (motif : bool) : string :=
  snd (fst (cofactor_verdict
              (coactivator_total k motif, corepressor_total m, []))).

Lemma cofactor_verdict_reasons_irrelevant (ca cr : float)
    (rs rs' : list string) :
  fst (cofactor_verdict (ca, cr, rs)) = fst (cofactor_verdict (ca, cr, rs')).
Proof.
  unfold cofactor_verdict.
  destruct (gtb ca cr); [reflexivity|]. now destruct (gtb cr f0_0).
Qed.

Lemma score_cofactor_counts (description sequence : string) :
  exists k m,
    k <= 32 /\ m <= 11 /\
    fst (fst (score_cofactor description sequence)) =
      verdict_score k m (motif_found sequence) /\
    snd (fst (score_cofactor description sequence)) =
      verdict_label k m (motif_found sequence).
Proof.
  destruct (cofactor_totals_counts description sequence)
    as [k [m [rs [Hk [Hm Htotals]]]]].
  exists k, m. split; [exact Hk|]. split; [exact Hm|].
  unfold score_cofactor, verdict_score, verdict_label.
  rewrite Htotals.
  now rewrite (cofactor_verdict_reasons_irrelevant _ _ rs []).
Qed.

(* ================================================================== *)
(** * Ranges of the scores                                             *)
(* ================================================================== *)

(** X1: the nuclear-receptor score is one of 0.0, 0.8 and 1.0, hence
    within [0.0, 1.0], for every description. *)
Theorem nr_score_range (description : string) :
  In (fst (score_nuclear_receptor description)) [f0_0; f0_8; f1_0]
  /\ leb f0_0 (fst (score_nuclear_receptor description)) = true
  /\ leb (fst (score_nuclear_receptor description)) f1_0 = true.
Proof.
  destruct (score_nuclear_receptor_counts description)
    as [a [b [Ha [Hb [_ [_ [Hscore _]]]]]]].
  rewrite Hscore.
  pose proof (check_counts2
    (fun a b => let s := nr_clamped a b in
                member s [f0_0; f0_8; f1_0] && leb f0_0 s && leb s f1_0)
    2 35 ltac:(vm_compute; reflexivity) a b Ha Hb) as H.
  cbv zeta beta in H. unfold nr_clamped in H.
  apply andb_true_iff in H as [H H3]. apply andb_true_iff in H as [H1 H2].
  split; [apply member_In; exact H1|]. split; assumption.
Qed.

(** X2: the nuclear-receptor score is 0.0 exactly when no reason is
    recorded, that is when no keyword of the table is found. *)
Theorem nr_score_zero_iff_no_reason (description : string) :
  fst (score_nuclear_receptor description) = f0_0 <->
  snd (score_nuclear_receptor description) = [].
Proof.
  destruct (score_nuclear_receptor_counts description)
    as [a [b [Ha [Hb [_ [_ [Hscore Hlen]]]]]]].
  rewrite Hscore.
  pose proof (check_counts2
    (fun a b => Bool.eqb (PyFloat.eqb (nr_clamped a b) f0_0)
                         (Nat.eqb (a + b) 0))
    2 35 ltac:(vm_compute; reflexivity) a b Ha Hb) as H.
  cbv beta in H. unfold nr_clamped in H. apply Bool.eqb_prop in H.
  split.
  - intros Hzero. rewrite Hzero in H.
    assert (Hab : a + b = 0).
    { apply Nat.eqb_eq. rewrite <- H. unfold PyFloat.eqb.
      destruct (eq_dec f0_0 f0_0); [reflexivity | congruence]. }
    apply length_zero_iff_nil. now rewrite Hlen.
  - intros Hnil. rewrite Hnil in Hlen. cbn [List.length] in Hlen.
    apply eqb_true_eq. rewrite H. apply Nat.eqb_eq. now symmetry.
Qed.

(** X3: two reasons or more, that is two keywords found or more, give
    the nuclear-receptor score 1.0. *)
Theorem nr_score_saturates (description : string) :
  2 <= List.length (snd (score_nuclear_receptor description)) ->
  fst (score_nuclear_receptor description) = f1_0.
Proof.
  destruct (score_nuclear_receptor_counts description)
    as [a [b [Ha [Hb [_ [_ [Hscore Hlen]]]]]]].
  rewrite Hscore, Hlen. intros Htwo.
  pose proof (check_counts2
    (fun a b => Nat.ltb (a + b) 2 || PyFloat.eqb (nr_clamped a b) f1_0)
    2 35 ltac:(vm_compute; reflexivity) a b Ha Hb) as H.
  cbv beta in H. unfold nr_clamped in H.
  apply orb_true_iff in H as [H | H].
  - apply Nat.ltb_lt in H. lia.
  - now apply eqb_true_eq.
Qed.

Lemma nr_score_saturates_witness :
  fst (score_nuclear_receptor "Retinoic acid receptor RXR-alpha") = f1_0.
Proof.
  apply (nr_score_saturates "Retinoic acid receptor RXR-alpha").
  vm_compute. lia.
Defined.

Definition cofactor_labels : list string :=
  ["coactivator"; "corepressor"; "unknown"].

(** X4: the cofactor score is one of 0.0, 0.5, 0.8 and 1.0, the subtype
    is one of "coactivator", "corepressor" and "unknown", and the score
    is 0.0 exactly when the subtype is "unknown". *)
Theorem cofactor_score_range (description sequence : string) :
  In (fst (fst (score_cofactor description sequence)))
     [f0_0; f0_5; f0_8; f1_0]
  /\ In (snd (fst (score_cofactor description sequence))) cofactor_labels
  /\ (fst (fst (score_cofactor description sequence)) = f0_0 <->
      snd (fst (score_cofactor description sequence)) = "unknown").
Proof.
  destruct (score_cofactor_counts description sequence)
    as [k [m [Hk [Hm [Hscore Hlabel]]]]].
  rewrite Hscore, Hlabel.
  generalize (motif_found sequence). intros motif.
  pose proof (check_counts3
    (fun k m motif =>
       member (verdict_score k m motif) [f0_0; f0_5; f0_8; f1_0]
       && existsb (String.eqb (verdict_label k m motif)) cofactor_labels
       && Bool.eqb (PyFloat.eqb (verdict_score k m motif) f0_0)
                   (String.eqb (verdict_label k m motif) "unknown"))
    32 11 ltac:(vm_compute; reflexivity) k m motif Hk Hm) as H.
  cbv beta in H.
  apply andb_true_iff in H as [H H3]. apply andb_true_iff in H as [H1 H2].
  split; [apply member_In; exact H1|]. split.
  - apply existsb_exists in H2 as [l [Hl Heq]].
    apply String.eqb_eq in Heq. now rewrite Heq.
  - apply Bool.eqb_prop in H3. split.
    + intros Hzero. apply String.eqb_eq. rewrite <- H3, Hzero.
      unfold PyFloat.eqb.
      destruct (eq_dec f0_0 f0_0); [reflexivity | congruence].
    + intros Hunknown. apply eqb_true_eq. rewrite H3.
      now apply String.eqb_eq.
Qed.

(** X5: a sequence with a match of [L..LL] gives a cofactor score of at
    least 0.5 and a subtype other than "unknown", whatever the
    description: the chain passes the cofactor threshold 0.3. *)
Theorem motif_passes_cofactor_threshold (description sequence : string) :
  has_LxxLL sequence ->
  geb (fst (fst (score_cofactor description sequence))) f0_5 = true
  /\ geb (fst (fst (score_cofactor description sequence))) f0_3 = true
  /\ snd (fst (score_cofactor description sequence)) <> "unknown".
Proof.
  intros Hmotif.
  destruct (score_cofactor_counts description sequence)
    as [k [m [Hk [Hm [Hscore Hlabel]]]]].
  rewrite Hscore, Hlabel.
  assert (Hfound : motif_found sequence = true).
  { unfold motif_found. rewrite (has_LxxLL_nonempty _ Hmotif).
    now apply re_search_LxxLL_spec. }
  rewrite Hfound.
  pose proof (check_counts2
    (fun k m =>
       geb (verdict_score k m true) f0_5
       && geb (verdict_score k m true) f0_3
       && negb (String.eqb (verdict_label k m true) "unknown"))
    32 11 ltac:(vm_compute; reflexivity) k m Hk Hm) as H.
  cbv beta in H.
  apply andb_true_iff in H as [H H3]. apply andb_true_iff in H as [H1 H2].
  split; [exact H1|]. split; [exact H2|].
  apply negb_true_iff in H3. now apply String.eqb_neq.
Qed.

Lemma motif_passes_cofactor_threshold_witness :
  geb (fst (fst (score_cofactor "lysozyme" "KHKILHRLLQDSS"))) f0_5 = true
  /\ geb (fst (fst (score_cofactor "lysozyme" "KHKILHRLLQDSS"))) f0_3 = true
  /\ snd (fst (score_cofactor "lysozyme" "KHKILHRLLQDSS")) <> "unknown".
Proof.
  apply (motif_passes_cofactor_threshold "lysozyme" "KHKILHRLLQDSS").
  apply re_search_LxxLL_spec. vm_compute. reflexivity.
Defined.

(* ================================================================== *)
(** * Case of the description                                          *)
(* ================================================================== *)

Lemma lower_char_idempotent (c : ascii) :
  lower_char (lower_char c) = lower_char c.
Proof.
  destruct c as [[] [] [] [] [] [] [] []]; vm_compute; reflexivity.
Qed.

Lemma lower_idempotent (s : string) : lower (lower s) = lower s.
Proof.
  induction s as [|c s IH]; [reflexivity|].
  cbn [lower]. now rewrite lower_char_idempotent, IH.
Qed.

(** X6: the scorers read the description only through its lowercased
    form: two descriptions that differ in letter case only get the same
    nuclear-receptor result and, with the same sequence, the same
    cofactor result. *)
Theorem scorers_ignore_case (d1 d2 sequence : string) :
  lower d1 = lower d2 ->
  score_nuclear_receptor d1 = score_nuclear_receptor d2
  /\ score_cofactor d1 sequence = score_cofactor d2 sequence.
Proof.
  intros Hlower. split.
  - unfold score_nuclear_receptor. now rewrite Hlower.
  - unfold score_cofactor, cofactor_totals. now rewrite Hlower.
Qed.

Lemma scorers_ignore_case_witness :
  score_nuclear_receptor "Estrogen Receptor"
    = score_nuclear_receptor "estrogen receptor"
  /\ score_cofactor "Estrogen Receptor" "MKV"
     = score_cofactor "estrogen receptor" "MKV".
Proof.
  apply (scorers_ignore_case "Estrogen Receptor" "estrogen receptor" "MKV").
  vm_compute. reflexivity.
Defined.

(** Lowercasing a description beforehand, as the extraction does,
    changes nothing in either score. *)
Lemma scorers_on_lowercased (description sequence : string) :
  score_nuclear_receptor (lower description)
    = score_nuclear_receptor description
  /\ score_cofactor (lower description) sequence
     = score_cofactor description sequence.
Proof.
  split.
  - unfold score_nuclear_receptor. now rewrite lower_idempotent.
  - unfold score_cofactor, cofactor_totals. now rewrite lower_idempotent.
Qed.

(* ================================================================== *)
(** * Extraction from well-shaped records                              *)
(* ================================================================== *)

(** The fields [extract_chain_info] reads from one polymer entity: the
    chain identifiers and the sequence are JSON values of any kind. *)
Record PolymerEntity := mkEntity {
  auth_asym_ids : list json;
  pdbx_description : string;
  poly_type : string;
  seq_one_letter_code_can : json
}.

(** The entity as the JSON object of the data files. *)
Definition entity_to_json (e : PolymerEntity) : json :=
  JObj [ ("rcsb_polymer_entity_container_identifiers",
          JObj [("auth_asym_ids", JArr (auth_asym_ids e))]);
         ("rcsb_polymer_entity",
          JObj [("pdbx_description", JStr (pdbx_description e))]);
         ("entity_poly",
          JObj [("type", JStr (poly_type e));
                ("pdbx_seq_one_letter_code_can",
                 seq_one_letter_code_can e)]) ].

(** One chain per identifier; description and type in lower case, the
    identifier and the sequence as they are. *)
Definition chains_of (e : PolymerEntity) : list ChainInfo :=
  map (fun id => mkChainInfo id (lower (pdbx_description e))
                             (lower (poly_type e))
                             (seq_one_letter_code_can e))
      (auth_asym_ids e).

Lemma for_each_chain_ids (ids : list json) (d t : string) (s : json)
    (acc : list ChainInfo) :
  for_each ids
    (fun chains chain_id => Return (chains ++ [mkChainInfo chain_id d t s]))
    acc
  = Return (acc ++ map (fun id => mkChainInfo id d t s) ids).
Proof.
  revert acc. induction ids as [|id ids IH]; intros acc.
  - cbn [map for_each]. now rewrite app_nil_r.
  - cbn [map for_each bind]. rewrite IH.
    now rewrite <- app_assoc.
Qed.

Lemma extract_entity_to_json (acc : list ChainInfo) (e : PolymerEntity) :
  extract_entity acc (entity_to_json e) = Return (acc ++ chains_of e).
Proof.
  destruct e as [ids d t s]. unfold chains_of, entity_to_json.
  cbn [auth_asym_ids pdbx_description poly_type seq_one_letter_code_can].
  destruct ids as [|id ids].
  - cbn [map]. rewrite app_nil_r. reflexivity.
  - unfold extract_entity.
    cbn [get lookup bind truthy negb lower_method iterate
             String.eqb Ascii.eqb Bool.eqb].
    exact (for_each_chain_ids (id :: ids) (lower d) (lower t) s acc).
Qed.

Lemma for_each_entities (es : list PolymerEntity) (acc : list ChainInfo) :
  for_each (map entity_to_json es) extract_entity acc
  = Return (acc ++ flat_map chains_of es).
Proof.
  revert acc. induction es as [|e es IH]; intros acc.
  - cbn [map for_each flat_map]. now rewrite app_nil_r.
  - cbn [map for_each flat_map]. rewrite extract_entity_to_json.
    cbn [bind]. rewrite IH. now rewrite <- app_assoc.
Qed.

(** X8: from a record whose entities carry a list of chain identifiers,
    a description and a type that are strings, and a sequence, the
    extraction returns one chain per identifier, in entity order and then
    in identifier order, with the entity's description and type in lower
    case; the identifier and the sequence are stored as the record gives
    them, whether they are strings or not; an entity with no identifier
    gives no chain. *)
Theorem extract_chain_info_well_shaped (es : list PolymerEntity) :
  extract_chain_info (record_of (map entity_to_json es))
  = Return (flat_map chains_of es).
Proof.
  unfold extract_chain_info, record_of.
  cbn [get lookup bind truthy negb String.eqb Ascii.eqb Bool.eqb].
  destruct es as [|e es]; [reflexivity|].
  cbn [map negb iterate bind].
  exact (for_each_entities (e :: es) []).
Qed.

(** The number of chains is the number of identifiers. *)
Lemma chain_count_well_shaped (es : list PolymerEntity) :
  List.length (flat_map chains_of es)
  = list_sum (map (fun e => List.length (auth_asym_ids e)) es).
Proof.
  induction es as [|e es IH]; [reflexivity|].
  cbn [flat_map map list_sum]. rewrite length_app, IH.
  unfold chains_of. now rewrite length_map.
Qed.

(** A [null] identifier and a [null] sequence are stored as they are. *)
Example null_fields_are_stored :
  extract_chain_info
    (record_of [entity_record [JNull] "Estrogen receptor" JNull])
  = Return [mkChainInfo JNull "estrogen receptor" "polypeptide(l)" JNull].
Proof. reflexivity. Qed.

(* ================================================================== *)
(** * Records of another shape                                         *)
(* ================================================================== *)

Definition is_mapping (v : json) : bool :=
  match v with JObj _ => true | _ => false end.

(** An entity with chain identifiers whose description is the JSON
    value [v]. *)
Definition entity_with_description (ids : list string) (v : json) : json :=
  JObj [ ("rcsb_polymer_entity_container_identifiers",
          JObj [("auth_asym_ids", JArr (map JStr ids))]);
         ("rcsb_polymer_entity", JObj [("pdbx_description", v)]) ].

Definition is_str (v : json) : bool :=
  match v with JStr _ => true | _ => false end.

Section OtherShapes.

Variable repr : json -> string.

(** X9: a record that is a non-empty mapping without the key "entry", or
    whose "entry" is a non-empty mapping without the key
    "polymer_entities", has no chain and is classified with the reason
    "Insufficient number of chains". *)
Theorem missing_section_is_insufficient (fs : filesystem)
    (pdb_id data_dir : string) (members : list (string * json)) :
  load_pdb_data fs pdb_id data_dir = Some (JObj members) ->
  members <> [] ->
  (lookup "entry" members = None \/
   exists entry, lookup "entry" members = Some (JObj entry) /\
                 entry <> [] /\ lookup "polymer_entities" entry = None) ->
  extract_chain_info (JObj members) = Return []
  /\ classify_complex repr fs pdb_id data_dir =
     Return (mkResult pdb_id false JNull JNull None None f0_0
                      ["Insufficient number of chains"]).
Proof.
  intros Hload Hnonempty Hshape.
  assert (Hextract : extract_chain_info (JObj members) = Return []).
  { unfold extract_chain_info. cbn [get bind].
    destruct Hshape as [Hnone | [entry [Hentry [Hne Hpe]]]].
    - rewrite Hnone. reflexivity.
    - rewrite Hentry. destruct entry as [|kv entry]; [congruence|].
      cbn [truthy negb get bind]. rewrite Hpe. reflexivity. }
  split; [exact Hextract|].
  unfold classify_complex. rewrite Hload.
  destruct members as [|kv members]; [congruence|].
  cbn [truthy negb]. rewrite Hextract. reflexivity.
Qed.

(** X10: a loaded value that is truthy and not a mapping (a non-empty
    list or string, a non-zero number, [true]) makes [classify_complex]
    raise [AttributeError]: no result is returned. *)
Theorem non_mapping_record_raises (fs : filesystem)
    (pdb_id data_dir : string) (data : json) :
  load_pdb_data fs pdb_id data_dir = Some data ->
  truthy data = true ->
  is_mapping data = false ->
  classify_complex repr fs pdb_id data_dir = Raise AttributeError.
Proof.
  intros Hload Htruthy Hshape. unfold classify_complex.
  rewrite Hload, Htruthy. cbn [negb].
  destruct data; try discriminate; reflexivity.
Qed.

(** X11: the default empty description stands in for a missing key
    only.  When the first entity of a record has chain identifiers and a
    description that is present but not a string ([null] for one), the
    extraction raises [AttributeError] and so does [classify_complex];
    the same entity without any chain identifier is skipped. *)
Theorem non_string_description_raises (fs : filesystem)
    (pdb_id data_dir : string) (ids : list string) (v : json)
    (others : list json) :
  is_str v = false ->
  ids <> [] ->
  load_pdb_data fs pdb_id data_dir
    = Some (record_of (entity_with_description ids v :: others)) ->
  extract_chain_info (record_of (entity_with_description ids v :: others))
    = Raise AttributeError
  /\ classify_complex repr fs pdb_id data_dir = Raise AttributeError
  /\ forall chains,
       extract_entity chains (entity_with_description [] v) = Return chains.
Proof.
  intros Hv Hids Hload.
  assert (Hextract :
    extract_chain_info (record_of (entity_with_description ids v :: others))
    = Raise AttributeError).
  { unfold extract_chain_info, record_of.
    cbn [get lookup bind truthy negb iterate for_each
             String.eqb Ascii.eqb Bool.eqb].
    unfold extract_entity, entity_with_description.
    cbn [get lookup bind String.eqb Ascii.eqb Bool.eqb].
    destruct ids as [|id ids]; [congruence|].
    cbn [map truthy negb].
    destruct v; try discriminate; reflexivity. }
  split; [exact Hextract|]. split.
  - unfold classify_complex. rewrite Hload.
    unfold record_of at 1. cbn [truthy negb]. rewrite Hextract.
    reflexivity.
  - intros chains. reflexivity.
Qed.

End OtherShapes.

Lemma missing_section_is_insufficient_witness :
  extract_chain_info (JObj [("data", JNull)]) = Return []
  /\ classify_complex no_repr
       (one_file "data/1ABC.json" (JObj [("data", JNull)]))
       "1ABC" "data" =
     Return (mkResult "1ABC" false JNull JNull None None f0_0
                      ["Insufficient number of chains"]).
Proof.
  apply (missing_section_is_insufficient no_repr
           (one_file "data/1ABC.json" (JObj [("data", JNull)]))
           "1ABC" "data" [("data", JNull)]).
  - reflexivity.
  - discriminate.
  - left. reflexivity.
Defined.

Lemma non_mapping_record_raises_witness :
  classify_complex no_repr (one_file "data/1ABC.json" (JArr [JInt 1]))
                   "1ABC" "data" = Raise AttributeError.
Proof.
  apply (non_mapping_record_raises no_repr
           (one_file "data/1ABC.json" (JArr [JInt 1])) "1ABC" "data"
           (JArr [JInt 1])); reflexivity.
Defined.

Lemma non_string_description_raises_witness :
  extract_chain_info
    (record_of [entity_with_description ["A"] JNull])
    = Raise AttributeError
  /\ classify_complex no_repr
       (one_file "data/1ABC.json"
                 (record_of [entity_with_description ["A"] JNull]))
       "1ABC" "data" = Raise AttributeError
  /\ forall chains,
       extract_entity chains (entity_with_description [] JNull)
       = Return chains.
Proof.
  apply (non_string_description_raises no_repr
           (one_file "data/1ABC.json"
                     (record_of [entity_with_description ["A"] JNull]))
           "1ABC" "data" ["A"] JNull []).
  - reflexivity.
  - discriminate.
  - reflexivity.
Defined.

(* ================================================================== *)
(** * What a stored pair holds                                         *)
(* ================================================================== *)

Lemma pair_value_nr_score (r c : ChainInfo) :
  nr_score (pair_value r c) =
  sub (fst (score_nuclear_receptor (description r)))
      (mul (fst (fst (score_cofactor (description r)
                                     (sequence_text (entity_sequence r)))))
           f0_5).
Proof.
  unfold pair_value.
  destruct (score_nuclear_receptor (description r)) as [nr nrs].
  destruct (score_cofactor (description c) (sequence_text (entity_sequence c)))
    as [[cs ct] crs].
  destruct (score_cofactor (description r) (sequence_text (entity_sequence r)))
    as [[ps pt] prs].
  reflexivity.
Qed.

Lemma pair_value_cofactor_score (r c : ChainInfo) :
  cofactor_score (pair_value r c) =
  fst (fst (score_cofactor (description c)
                           (sequence_text (entity_sequence c)))).
Proof.
  unfold pair_value.
  destruct (score_nuclear_receptor (description r)) as [nr nrs].
  destruct (score_cofactor (description c) (sequence_text (entity_sequence c)))
    as [[cs ct] crs].
  destruct (score_cofactor (description r) (sequence_text (entity_sequence r)))
    as [[ps pt] prs].
  reflexivity.
Qed.

Lemma pair_value_cofactor_type (r c : ChainInfo) :
  best_cofactor_type (pair_value r c) =
  Some (snd (fst (score_cofactor (description c)
                                 (sequence_text (entity_sequence c))))).
Proof.
  unfold pair_value.
  destruct (score_nuclear_receptor (description r)) as [nr nrs].
  destruct (score_cofactor (description c) (sequence_text (entity_sequence c)))
    as [[cs ct] crs].
  destruct (score_cofactor (description r) (sequence_text (entity_sequence r)))
    as [[ps pt] prs].
  reflexivity.
Qed.

Lemma pair_value_nr_reasons (r c : ChainInfo) :
  nr_reasons (pair_value r c) =
  snd (score_nuclear_receptor (description r)).
Proof.
  unfold pair_value.
  destruct (score_nuclear_receptor (description r)) as [nr nrs].
  destruct (score_cofactor (description c) (sequence_text (entity_sequence c)))
    as [[cs ct] crs].
  destruct (score_cofactor (description r) (sequence_text (entity_sequence r)))
    as [[ps pt] prs].
  reflexivity.
Qed.

Lemma pair_value_cofactor_reasons (r c : ChainInfo) :
  cofactor_reasons (pair_value r c) =
  snd (score_cofactor (description c) (sequence_text (entity_sequence c))).
Proof.
  unfold pair_value.
  destruct (score_nuclear_receptor (description r)) as [nr nrs].
  destruct (score_cofactor (description c) (sequence_text (entity_sequence c)))
    as [[cs ct] crs].
  destruct (score_cofactor (description r) (sequence_text (entity_sequence r)))
    as [[ps pt] prs].
  reflexivity.
Qed.

Lemma leb_refl (a : float) : is_nan a = false -> leb a a = true.
Proof.
  intros Ha. apply not_ltb_leb; [exact Ha | exact Ha | apply ltb_irrefl].
Qed.

(** The scores of a pair lie in the finite ranges of the scorers. *)
Lemma evaluate_in_ranges (p : candidate_pair) :
  exists nr penalty cof,
    In nr nr_score_values /\ In penalty cofactor_score_values /\
    In cof cofactor_score_values /\
    nr_score (evaluate p) = sub nr (mul penalty f0_5) /\
    cofactor_score (evaluate p) = cof /\
    confidence (evaluate p) = pair_confidence_of nr penalty cof.
Proof.
  destruct p as [[i r] [j c]]. unfold evaluate. cbn [fst snd].
  exists (fst (score_nuclear_receptor (description r))),
         (fst (fst (score_cofactor (description r)
                                   (sequence_text (entity_sequence r))))),
         (fst (fst (score_cofactor (description c)
                                   (sequence_text (entity_sequence c))))).
  split; [apply score_nuclear_receptor_values|].
  split; [apply score_cofactor_values|].
  split; [apply score_cofactor_values|].
  split; [apply pair_value_nr_score|].
  split; [apply pair_value_cofactor_score|].
  apply pair_value_confidence.
Qed.

Lemma confidence_evaluate (p : candidate_pair) :
  confidence (evaluate p) = pair_confidence p.
Proof. unfold pair_confidence. reflexivity. Qed.

Lemma pair_confidence_pair (i j : nat) (r c : ChainInfo) :
  pair_confidence ((i, r), (j, c)) = confidence (pair_value r c).
Proof. unfold pair_confidence, evaluate. cbn [fst snd]. reflexivity. Qed.

(** What a pair stores, by the scores behind it. *)
Lemma evaluate_view (p : candidate_pair) :
  exists nr penalty d s,
    In nr nr_score_values /\ In penalty cofactor_score_values /\
    nr_score (evaluate p) = sub nr (mul penalty f0_5) /\
    cofactor_score (evaluate p) = fst (fst (score_cofactor d s)) /\
    confidence (evaluate p) =
      pair_confidence_of nr penalty (fst (fst (score_cofactor d s))) /\
    best_cofactor_type (evaluate p) = Some (snd (fst (score_cofactor d s))).
Proof.
  exists (fst (score_nuclear_receptor (description (snd (fst p))))),
         (fst (fst (score_cofactor
                      (description (snd (fst p)))
                      (sequence_text (entity_sequence (snd (fst p))))))),
         (description (snd (snd p))),
         (sequence_text (entity_sequence (snd (snd p)))).
  split; [apply score_nuclear_receptor_values|].
  split; [apply score_cofactor_values|].
  split; [exact (pair_value_nr_score (snd (fst p)) (snd (snd p)))|].
  split; [exact (pair_value_cofactor_score (snd (fst p)) (snd (snd p)))|].
  split; [exact (pair_value_confidence (snd (fst p)) (snd (snd p)))|].
  exact (pair_value_cofactor_type (snd (fst p)) (snd (snd p))).
Qed.

(** What a pair stores, with the reasons. *)
Lemma evaluate_reasons_view (p : candidate_pair) :
  exists dr sr,
    nr_score (evaluate p) =
      sub (fst (score_nuclear_receptor dr))
          (mul (fst (fst (score_cofactor dr sr))) f0_5) /\
    nr_reasons (evaluate p) = snd (score_nuclear_receptor dr).
Proof.
  exists (description (snd (fst p))),
         (sequence_text (entity_sequence (snd (fst p)))).
  split; [exact (pair_value_nr_score (snd (fst p)) (snd (snd p)))|].
  exact (pair_value_nr_reasons (snd (fst p)) (snd (snd p))).
Qed.

(** The subtype of a cofactor score of at least 0.3. *)
Lemma cofactor_above_threshold_label (description sequence : string) :
  geb (fst (fst (score_cofactor description sequence))) f0_3 = true ->
  snd (fst (score_cofactor description sequence)) = "coactivator"
  \/ snd (fst (score_cofactor description sequence)) = "corepressor".
Proof.
  destruct (score_cofactor_counts description sequence)
    as [k [m [Hk [Hm [Hscore Hlabel]]]]].
  rewrite Hscore, Hlabel.
  generalize (motif_found sequence). intros motif.
  pose proof (check_counts3
    (fun k m motif =>
       negb (geb (verdict_score k m motif) f0_3)
       || String.eqb (verdict_label k m motif) "coactivator"
       || String.eqb (verdict_label k m motif) "corepressor")
    32 11 ltac:(vm_compute; reflexivity) k m motif Hk Hm) as H.
  cbv beta in H. intros Hge. rewrite Hge in H. cbn [negb orb] in H.
  apply orb_true_iff in H as [H | H]; apply String.eqb_eq in H; auto.
Qed.

Lemma cofactor_verdict_reasons (ca cr : float) (rs : list string) :
  snd (cofactor_verdict (ca, cr, rs)) = rs.
Proof.
  unfold cofactor_verdict.
  destruct (gtb ca cr); [reflexivity|]. now destruct (gtb cr f0_0).
Qed.

(** The cofactor scorer by the keywords and the motif found: its score
    and the number of its reasons. *)
Lemma score_cofactor_reason_count (description sequence : string) :
  exists k m,
    k <= 32 /\ m <= 11 /\
    fst (fst (score_cofactor description sequence)) =
      verdict_score k m (motif_found sequence) /\
    List.length (snd (score_cofactor description sequence)) =
      k + m + (if motif_found sequence then 1 else 0).
Proof.
  exists (List.length (matched coactivator_keywords (lower description))),
         (List.length (matched corepressor_keywords (lower description))).
  split; [exact (matched_length _ coactivator_keywords)|].
  split; [exact (matched_length _ corepressor_keywords)|].
  unfold score_cofactor, cofactor_totals, verdict_score, motif_found.
  rewrite keyword_totals_matched.
  unfold coactivator_total, corepressor_total.
  destruct (nonempty sequence && re_search_LxxLL sequence).
  - rewrite cofactor_verdict_reasons.
    rewrite (cofactor_verdict_reasons_irrelevant _ _ _ []).
    split; [reflexivity|].
    rewrite !length_app, !length_map. cbn [List.length]. lia.
  - rewrite cofactor_verdict_reasons.
    rewrite (cofactor_verdict_reasons_irrelevant _ _ _ []).
    split; [reflexivity|].
    rewrite !length_app, !length_map. lia.
Qed.

Lemma nr_passing_has_reason (d : string) (pen : float) :
  In pen cofactor_score_values ->
  geb (sub (fst (score_nuclear_receptor d)) (mul pen f0_5)) f0_5 = true ->
  snd (score_nuclear_receptor d) <> [].
Proof.
  intros Hpen.
  destruct (score_nuclear_receptor_counts d)
    as [a [b [Ha [Hb [_ [_ [Hscore Hlen]]]]]]].
  rewrite Hscore. intros Hnr.
  pose proof (check_counts2
    (fun a b =>
       forallb (fun pen =>
                  negb (geb (sub (nr_clamped a b) (mul pen f0_5)) f0_5)
                  || Nat.leb 1 (a + b))
               cofactor_score_values)
    2 35 ltac:(vm_compute; reflexivity) a b Ha Hb) as H.
  cbv beta in H. unfold nr_clamped in H.
  rewrite forallb_forall in H. specialize (H pen Hpen).
  rewrite Hnr in H. cbn [negb orb] in H. apply Nat.leb_le in H.
  intros Hnil. rewrite Hnil in Hlen. cbn [List.length] in Hlen. lia.
Qed.

Lemma cofactor_passing_has_reason (d s : string) :
  geb (fst (fst (score_cofactor d s))) f0_3 = true ->
  snd (score_cofactor d s) <> [].
Proof.
  destruct (score_cofactor_reason_count d s)
    as [k [m [Hk [Hm [Hscore Hlen]]]]].
  rewrite Hscore. revert Hlen.
  generalize (motif_found s). intros motif Hlen Hcof.
  pose proof (check_counts3
    (fun k m motif =>
       negb (geb (verdict_score k m motif) f0_3)
       || Nat.leb 1 (k + m + (if motif then 1 else 0)))
    32 11 ltac:(vm_compute; reflexivity) k m motif Hk Hm) as H.
  cbv beta in H. rewrite Hcof in H. cbn [negb orb] in H.
  apply Nat.leb_le in H.
  intros Hnil. rewrite Hnil in Hlen. cbn [List.length] in Hlen. lia.
Qed.

(** A pair that passes the thresholds has a reason of each scorer. *)
Lemma passing_pair_has_reasons (p : candidate_pair) :
  passes_thresholds (evaluate p) = true ->
  nr_reasons (evaluate p) <> [] /\ cofactor_reasons (evaluate p) <> [].
Proof.
  rewrite passes_thresholds_unfold.
  destruct (evaluate_reasons_view p) as [dr [sr [Enr Enrs]]].
  rewrite Enr, Enrs.
  unfold evaluate at 1 2.
  rewrite pair_value_cofactor_score, pair_value_cofactor_reasons.
  intros Hpass. apply andb_true_iff in Hpass as [Hnr Hcof].
  split.
  - exact (nr_passing_has_reason dr _ (score_cofactor_values dr sr) Hnr).
  - exact (cofactor_passing_has_reason _ _ Hcof).
Qed.

(** The stored pair of a search that returned something else than the
    starting dictionary. *)
Lemma first_maximum_stored (chains : list ChainInfo) (best : BestPair) :
  pairing_search chains = Return best ->
  best = initial_best_pair
  \/ exists i j ci cj,
       nth_error chains i = Some ci /\ nth_error chains j = Some cj /\
       i <> j /\
       evaluate_pair ci cj = Return best /\
       best = evaluate ((i, ci), (j, cj)) /\
       gtb (confidence best) f0_0 = true.
Proof.
  intros Hsearch.
  pose proof (pairing_search_returns chains best Hsearch) as [Husable _].
  destruct (pairing_search_first_maximum chains best Hsearch)
    as [[Hinit _] | [pre [[[i ci] [j cj]] [post [Hpairs [Hbest [Hpos _]]]]]]];
    [now left | right].
  assert (Hin : In ((i, ci), (j, cj)) (valid_pairs chains))
    by (rewrite Hpairs; apply in_elt).
  rewrite Forall_forall in Husable.
  pose proof (evaluate_usable _ (Husable _ Hin)) as Heval.
  cbn [fst snd] in Heval.
  apply in_valid_pairs in Hin as [Hi [Hj Hne]].
  exists i, j, ci, cj.
  split; [exact Hi|]. split; [exact Hj|]. split; [exact Hne|].
  split; [rewrite Hbest; exact Heval|]. split; [exact Hbest|].
  rewrite Hbest, confidence_evaluate. exact Hpos.
Qed.

(* ================================================================== *)
(** * The outcome of the search and of the decision                    *)
(* ================================================================== *)

(** X12: when every sequence is a string or a false value the search
    returns, every ordered pair of distinct chains is scored, and the
    confidence kept by the search is an upper bound of the confidence of
    each of them. *)
Theorem search_confidence_is_maximum (chains : list ChainInfo) :
  Forall (fun c => usable_sequence (entity_sequence c) = true) chains ->
  exists best,
    pairing_search chains = Return best /\
    forall i j r c,
      nth_error chains i = Some r ->
      nth_error chains j = Some c ->
      i <> j ->
      exists v,
        evaluate_pair r c = Return v /\
        leb (confidence v) (confidence best) = true.
Proof.
  intros Husable.
  exists (fold_left keep_pair (valid_pairs chains) initial_best_pair).
  split; [exact (pairing_search_usable chains Husable)|].
  intros i j r c Hi Hj Hne.
  rewrite Forall_forall in Husable.
  exists (pair_value r c). split.
  - apply evaluate_pair_usable; apply Husable.
    + exact (nth_error_In _ _ Hi).
    + exact (nth_error_In _ _ Hj).
  - assert (Hin : In ((i, r), (j, c)) (valid_pairs chains))
      by (apply in_valid_pairs; auto).
    rewrite <- (pair_confidence_pair i j r c).
    revert Hin. generalize ((i, r), (j, c)). intros q Hin.
    destruct (keep_first_maximum (valid_pairs chains))
      as [[Hbest Hall] | [pre [p [post [Hpairs [Hbest [_ [Hpre Hpost]]]]]]]];
      rewrite Hbest.
    + rewrite Forall_forall in Hall. exact (Hall q Hin).
    + rewrite (confidence_evaluate p). rewrite Hpairs in Hin.
      apply in_app_or in Hin as [Hin | [<- | Hin]].
      * rewrite Forall_forall in Hpre. apply ltb_leb. exact (Hpre q Hin).
      * apply leb_refl, pair_confidence_not_nan.
      * rewrite Forall_forall in Hpost. exact (Hpost q Hin).
Qed.

Lemma search_confidence_is_maximum_witness :
  exists best,
    pairing_search null_sequence_chains = Return best /\
    forall i j r c,
      nth_error null_sequence_chains i = Some r ->
      nth_error null_sequence_chains j = Some c ->
      i <> j ->
      exists v,
        evaluate_pair r c = Return v /\
        leb (confidence v) (confidence best) = true.
Proof.
  apply (search_confidence_is_maximum null_sequence_chains).
  repeat constructor.
Defined.

(** Two chains without keyword or motif, their sequences being [null]. *)
Definition plain_null_record : json :=
  record_of [ entity_record [JStr "A"] "Lysozyme" JNull;
              entity_record [JStr "B"] "Insulin" JNull ].

Definition plain_null_chains : list ChainInfo :=
  [ mkChainInfo (JStr "A") "lysozyme" "polypeptide(l)" JNull;
    mkChainInfo (JStr "B") "insulin" "polypeptide(l)" JNull ].

Lemma plain_null_pairs_not_positive (i j : nat) (r c : ChainInfo) :
  nth_error plain_null_chains i = Some r ->
  nth_error plain_null_chains j = Some c ->
  i <> j ->
  exists v, evaluate_pair r c = Return v /\ leb (confidence v) f0_0 = true.
Proof.
  intros Hi Hj _. exists (pair_value r c).
  destruct i as [|[|i]]; cbn in Hi;
    [injection Hi as <- | injection Hi as <- | destruct i; discriminate];
    (destruct j as [|[|j]]; cbn in Hj;
     [injection Hj as <- | injection Hj as <- | destruct j; discriminate]);
    split; vm_compute; reflexivity.
Qed.


Definition receptor_only_record : json :=
  record_of [ entity_record [JStr "A"] "PPAR gamma" (JStr "MKV");
              entity_record [JStr "B"] "Insulin" (JStr "GIV") ].

Definition shown_cofactor_scores : list string :=
  ["0.00"; "0.50"; "0.80"; "1.00"].

Definition shown_receptor_scores : list string :=
  ["0.00"; "-0.25"; "-0.40"; "-0.50"; "0.80"; "0.55"; "0.40"; "0.30";
   "1.00"; "0.75"; "0.60"; "0.50"].

Definition shown_in (xs : list string) (x : float) : bool :=
  existsb (String.eqb (format_2f x)) xs.

Lemma shown_in_In (xs : list string) (x : float) :
  shown_in xs x = true -> In (format_2f x) xs.
Proof.
  unfold shown_in. rewrite existsb_exists. intros [y [Hy Heq]].
  apply String.eqb_eq in Heq. now rewrite Heq.
Qed.

Section Outcome.

Variable repr : json -> string.

(** X13: when a record has two chains or more, every ordered pair of
    distinct chains is scored without an exception and none has a
    confidence above 0, the result is not a complex, has confidence 0.0,
    no chain, no type and no reason at all. *)
Theorem no_positive_pair_result (fs : filesystem)
    (pdb_id data_dir : string) (data : json) (chains : list ChainInfo) :
  load_pdb_data fs pdb_id data_dir = Some data ->
  truthy data = true ->
  extract_chain_info data = Return chains ->
  2 <= List.length chains ->
  (forall i j r c,
     nth_error chains i = Some r -> nth_error chains j = Some c ->
     i <> j ->
     exists v, evaluate_pair r c = Return v /\
               leb (confidence v) f0_0 = true) ->
  classify_complex repr fs pdb_id data_dir =
    Return (mkResult pdb_id false JNull JNull None None f0_0 []).
Proof.
  intros Hload Htruthy Hextract Hlen Hnone.
  assert (Husable : Forall (fun p => usable_pair p = true)
                           (valid_pairs chains)).
  { apply Forall_forall. intros [[i r] [j c]] Hin.
    apply in_valid_pairs in Hin as [Hi [Hj Hne]].
    destruct (Hnone i j r c Hi Hj Hne) as [v [Hv _]].
    apply evaluate_pair_returns in Hv as [Hr [Hc _]].
    unfold usable_pair. cbn [fst snd]. now rewrite Hr, Hc. }
  assert (Hsearch : pairing_search chains = Return initial_best_pair).
  { rewrite pairing_search_scan, (scan_usable _ _ Husable). f_equal.
    destruct (keep_first_maximum (valid_pairs chains))
      as [[Hbest _] | [pre [[[i r] [j c]] [post [Hpairs [_ [Hpos _]]]]]]];
      [exact Hbest|].
    assert (Hin : In ((i, r), (j, c)) (valid_pairs chains))
      by (rewrite Hpairs; apply in_elt).
    apply in_valid_pairs in Hin as [Hi [Hj Hne]].
    destruct (Hnone i j r c Hi Hj Hne) as [v [Hv Hle]].
    apply evaluate_pair_returns in Hv as [_ [_ ->]].
    apply leb_not_ltb in Hle. rewrite gtb_ltb in Hpos.
    rewrite pair_confidence_pair in Hpos. rewrite Hle in Hpos.
    discriminate. }
  rewrite (classify_complex_searched repr fs pdb_id data_dir data chains
             initial_best_pair Hload Htruthy Hextract Hlen Hsearch).
  reflexivity.
Qed.

(** X14: every result with the flag set has a confidence of at least
    0.5 and a cofactor type that is "coactivator" or "corepressor",
    never "unknown" and never absent. *)
Theorem complex_confidence_and_type (fs : filesystem)
    (pdb_id data_dir : string) (result : ClassificationResult) :
  classify_complex repr fs pdb_id data_dir = Return result ->
  is_nr_cofactor_complex result = true ->
  geb (confidence_score result) f0_5 = true
  /\ (cofactor_type result = Some "coactivator"
      \/ cofactor_type result = Some "corepressor").
Proof.
  intros Hresult Hflag.
  destruct (classify_complex_cases _ _ _ _ _ Hresult)
    as [-> | [-> | [data [chains [best [_ [_ [_ [Hsearch ->]]]]]]]]];
    try discriminate.
  rewrite decide_flag in Hflag. rewrite decide_confidence.
  destruct (pairing_search_first_maximum chains best Hsearch)
    as [[Hbest _] | [pre [p [post [_ [Hbest _]]]]]];
    rewrite Hbest in Hflag |- *.
  - rewrite initial_fails_thresholds in Hflag. discriminate.
  - rewrite (decide_cofactor_type repr pdb_id (evaluate p) _
               (evaluate_cofactor p)).
    rewrite passes_thresholds_unfold in Hflag.
    destruct (evaluate_view p)
      as [nr [pen [d [s [Hn [Hp [Enr [Ecof [Econf Etype]]]]]]]]].
    rewrite Enr, Ecof in Hflag. rewrite Econf, Etype.
    apply andb_true_iff in Hflag as [Hnr Hcof].
    split.
    + pose proof (score_cofactor_values d s) as Hc.
      revert Hc Hcof. generalize (fst (fst (score_cofactor d s))).
      intros cof Hc Hcof.
      pose proof (check_values3
        (fun nr pen cof =>
           negb (geb (sub nr (mul pen f0_5)) f0_5 && geb cof f0_3)
           || geb (pair_confidence_of nr pen cof) f0_5)
        nr_score_values cofactor_score_values cofactor_score_values
        ltac:(vm_compute; reflexivity) nr pen cof Hn Hp Hc) as H.
      cbv beta in H. rewrite Hnr, Hcof in H. exact H.
    + destruct (cofactor_above_threshold_label _ _ Hcof) as [H | H];
        rewrite H; [left | right]; reflexivity.
Qed.

(** X15: the confidence of every returned result lies within
    [0.0, 1.0]. *)
Theorem result_confidence_range (fs : filesystem)
    (pdb_id data_dir : string) (result : ClassificationResult) :
  classify_complex repr fs pdb_id data_dir = Return result ->
  leb f0_0 (confidence_score result) = true
  /\ leb (confidence_score result) f1_0 = true.
Proof.
  intros Hresult.
  destruct (classify_complex_cases _ _ _ _ _ Hresult)
    as [-> | [-> | [data [chains [best [_ [_ [_ [Hsearch ->]]]]]]]]];
    [split; reflexivity | split; reflexivity |].
  rewrite decide_confidence.
  destruct (pairing_search_first_maximum chains best Hsearch)
    as [[Hbest _] | [pre [p [post [_ [Hbest [Hpos _]]]]]]];
    rewrite Hbest; [split; reflexivity|].
  rewrite gtb_ltb, <- (confidence_evaluate p) in Hpos.
  split; [apply ltb_leb; exact Hpos|].
  destruct (evaluate_in_ranges p)
    as [nr [pen [cof [Hn [Hp [Hc [_ [_ Econf]]]]]]]].
  rewrite Econf.
  exact (check_values3
           (fun nr pen cof => leb (pair_confidence_of nr pen cof) f1_0)
           nr_score_values cofactor_score_values cofactor_score_values
           ltac:(vm_compute; reflexivity) nr pen cof Hn Hp Hc).
Qed.


(** X20: the reasons of a result with the flag set are the reasons the
    nuclear-receptor scorer gives the description of the receptor chain,
    one or more, each headed by the identifier of that chain, followed by
    the reasons the cofactor scorer gives the cofactor chain, one or
    more, each headed by the identifier of that chain, and nothing
    else. *)
Theorem complex_reasons (fs : filesystem)
    (pdb_id data_dir : string) (result : ClassificationResult) :
  classify_complex repr fs pdb_id data_dir = Return result ->
  is_nr_cofactor_complex result = true ->
  exists data chains i j ci cj,
    load_pdb_data fs pdb_id data_dir = Some data /\
    extract_chain_info data = Return chains /\
    nth_error chains i = Some ci /\
    nth_error chains j = Some cj /\
    i <> j /\
    receptor_chain result = chain_id ci /\
    cofactor_chain result = chain_id cj /\
    snd (score_nuclear_receptor (description ci)) <> [] /\
    snd (score_cofactor (description cj)
                        (sequence_text (entity_sequence cj))) <> [] /\
    reasons result =
      map (fun r => ("Receptor (" ++ py_str repr (chain_id ci) ++ "): "
                       ++ r)%string)
          (snd (score_nuclear_receptor (description ci)))
      ++ map (fun r => ("Cofactor (" ++ py_str repr (chain_id cj) ++ "): "
                          ++ r)%string)
             (snd (score_cofactor (description cj)
                                  (sequence_text (entity_sequence cj)))).
Proof.
  intros Hresult Hflag.
  destruct (classify_complex_cases _ _ _ _ _ Hresult)
    as [-> | [-> | [data [chains [best [Hload [Hextract [_ [Hsearch ->]]]]]]]]];
    try discriminate.
  rewrite decide_flag in Hflag.
  rewrite (decide_reasons_passed repr pdb_id best Hflag).
  destruct (first_maximum_stored chains best Hsearch)
    as [Hbest | [i [j [ci [cj [Hi [Hj [Hne [_ [Hbest _]]]]]]]]]].
  - rewrite Hbest, initial_fails_thresholds in Hflag. discriminate.
  - assert (Hr : receptor best = Some ci)
      by (rewrite Hbest; apply evaluate_receptor).
    assert (Hc : cofactor best = Some cj)
      by (rewrite Hbest; apply evaluate_cofactor).
    assert (Hnrs : nr_reasons best =
                   snd (score_nuclear_receptor (description ci)))
      by (rewrite Hbest; apply pair_value_nr_reasons).
    assert (Hcrs : cofactor_reasons best =
                   snd (score_cofactor (description cj)
                          (sequence_text (entity_sequence cj))))
      by (rewrite Hbest; apply pair_value_cofactor_reasons).
    rewrite Hbest in Hflag.
    destruct (passing_pair_has_reasons _ Hflag) as [Hnr Hcof].
    rewrite <- Hbest, Hnrs in Hnr. rewrite <- Hbest, Hcrs in Hcof.
    exists data, chains, i, j, ci, cj.
    rewrite (decide_receptor_chain repr pdb_id best ci Hr).
    rewrite (decide_cofactor_chain repr pdb_id best cj Hc).
    rewrite Hr, Hc, Hnrs, Hcrs.
    split; [exact Hload|]. split; [exact Hextract|].
    split; [exact Hi|]. split; [exact Hj|]. split; [exact Hne|].
    split; [reflexivity|]. split; [reflexivity|].
    split; [exact Hnr|]. split; [exact Hcof|].
    reflexivity.
Qed.

(** X21: a result without the flag but with a confidence above 0 holds
    the pair the search kept; its reasons are the reasons of that pair,
    headed by the chain identifiers, and end with the text of the failed
    threshold check, which shows the penalised receptor score and the
    cofactor score of that pair with two decimals; the cofactor score is
    shown as 0.00, 0.50, 0.80 or 1.00 and the receptor score as one of
    twelve values from -0.50 to 1.00. *)
Theorem failed_threshold_reason_last (fs : filesystem)
    (pdb_id data_dir : string) (result : ClassificationResult) :
  classify_complex repr fs pdb_id data_dir = Return result ->
  is_nr_cofactor_complex result = false ->
  gtb (confidence_score result) f0_0 = true ->
  exists data chains i j ci cj best,
    load_pdb_data fs pdb_id data_dir = Some data /\
    extract_chain_info data = Return chains /\
    nth_error chains i = Some ci /\
    nth_error chains j = Some cj /\
    i <> j /\
    pairing_search chains = Return best /\
    evaluate_pair ci cj = Return best /\
    reasons result =
      (map (fun r => ("Receptor (" ++ py_str repr (chain_id ci) ++ "): "
                        ++ r)%string)
           (nr_reasons best)
       ++ map (fun r => ("Cofactor (" ++ py_str repr (chain_id cj) ++ "): "
                           ++ r)%string)
              (cofactor_reasons best))
      ++ [("Failed threshold check: NR_score(" ++ format_2f (nr_score best)
           ++ ") >= 0.5, Cofactor_score("
           ++ format_2f (cofactor_score best) ++ ") >= 0.3")%string]
    /\ In (format_2f (nr_score best)) shown_receptor_scores
    /\ In (format_2f (cofactor_score best)) shown_cofactor_scores.
Proof.
  intros Hresult Hflag Hpos.
  destruct (classify_complex_cases _ _ _ _ _ Hresult)
    as [-> | [-> | [data [chains [best [Hload [Hextract [_ [Hsearch ->]]]]]]]]];
    [vm_compute in Hpos; discriminate
    | vm_compute in Hpos; discriminate |].
  rewrite decide_flag in Hflag. rewrite decide_confidence in Hpos.
  rewrite (decide_reasons_failed repr pdb_id best Hflag Hpos).
  destruct (first_maximum_stored chains best Hsearch)
    as [Hbest | [i [j [ci [cj [Hi [Hj [Hne [Heval [Hbest _]]]]]]]]]].
  - rewrite Hbest in Hpos. vm_compute in Hpos. discriminate.
  - assert (Hr : receptor best = Some ci)
      by (rewrite Hbest; apply evaluate_receptor).
    assert (Hc : cofactor best = Some cj)
      by (rewrite Hbest; apply evaluate_cofactor).
    exists data, chains, i, j, ci, cj, best.
    rewrite Hr, Hc.
    split; [exact Hload|]. split; [exact Hextract|].
    split; [exact Hi|]. split; [exact Hj|]. split; [exact Hne|].
    split; [exact Hsearch|]. split; [exact Heval|].
    split; [reflexivity|].
    destruct (evaluate_in_ranges ((i, ci), (j, cj)))
      as [nr [pen [cof [Hn [Hp [Hcv [Enr [Ecof _]]]]]]]].
    rewrite Hbest, Enr, Ecof. split.
    + apply shown_in_In.
      exact (check_values3
               (fun nr pen _ =>
                  shown_in shown_receptor_scores (sub nr (mul pen f0_5)))
               nr_score_values cofactor_score_values cofactor_score_values
               ltac:(vm_compute; reflexivity) nr pen cof Hn Hp Hcv).
    + apply shown_in_In.
      exact (check_values3
               (fun _ _ cof => shown_in shown_cofactor_scores cof)
               nr_score_values cofactor_score_values cofactor_score_values
               ltac:(vm_compute; reflexivity) nr pen cof Hn Hp Hcv).
Qed.


End Outcome.

Lemma no_positive_pair_result_witness :
  classify_complex no_repr (one_file "data/1ABC.json" plain_null_record)
                   "1ABC" "data" =
    Return (mkResult "1ABC" false JNull JNull None None f0_0 []).
Proof.
  apply (no_positive_pair_result no_repr
           (one_file "data/1ABC.json" plain_null_record) "1ABC" "data"
           plain_null_record plain_null_chains).
  - reflexivity.
  - reflexivity.
  - reflexivity.
  - cbn. lia.
  - exact plain_null_pairs_not_positive.
Defined.

Lemma complex_confidence_and_type_witness :
  geb f1_0 f0_5 = true
  /\ (Some "coactivator" = Some "coactivator"
      \/ Some "coactivator" = Some "corepressor").
Proof.
  apply (complex_confidence_and_type no_repr
           (one_file "data/1ABC.json" null_id_record) "1ABC" "data"
           (mkResult "1ABC" true JNull (JStr "B")
              (Some "estrogen receptor") (Some "coactivator") f1_0
              ["Receptor (None): Specific NR: estrogen receptor";
               "Receptor (None): Specific NR: tr";
               "Cofactor (B): Coactivator keyword: nuclear receptor coactivator";
               "Cofactor (B): Coactivator keyword: activator";
               "Cofactor (B): Corepressor sequence motif 'LXXLL' found"])).
  - vm_compute. reflexivity.
  - reflexivity.
Defined.

Lemma result_confidence_range_witness :
  leb f0_0 (div f0_8 f2_0) = true /\ leb (div f0_8 f2_0) f1_0 = true.
Proof.
  apply (result_confidence_range no_repr
           (one_file "data/1ABC.json" receptor_only_record) "1ABC" "data"
           (mkResult "1ABC" false (JStr "A") (JStr "B")
              (Some "ppar gamma") (Some "unknown")
              (div f0_8 f2_0)
              ["Receptor (A): Specific NR: ppar";
               "Failed threshold check: NR_score(0.80) >= 0.5, Cofactor_score(0.00) >= 0.3"])).
  vm_compute. reflexivity.
Defined.


Lemma complex_reasons_witness :
  exists data chains i j ci cj,
    load_pdb_data (one_file "data/1ABC.json" null_id_record) "1ABC" "data"
      = Some data /\
    extract_chain_info data = Return chains /\
    nth_error chains i = Some ci /\
    nth_error chains j = Some cj /\
    i <> j /\
    JNull = chain_id ci /\
    JStr "B" = chain_id cj /\
    snd (score_nuclear_receptor (description ci)) <> [] /\
    snd (score_cofactor (description cj)
                        (sequence_text (entity_sequence cj))) <> [] /\
    ["Receptor (None): Specific NR: estrogen receptor";
     "Receptor (None): Specific NR: tr";
     "Cofactor (B): Coactivator keyword: nuclear receptor coactivator";
     "Cofactor (B): Coactivator keyword: activator";
     "Cofactor (B): Corepressor sequence motif 'LXXLL' found"] =
      map (fun r => ("Receptor (" ++ py_str no_repr (chain_id ci) ++ "): "
                       ++ r)%string)
          (snd (score_nuclear_receptor (description ci)))
      ++ map (fun r => ("Cofactor (" ++ py_str no_repr (chain_id cj) ++ "): "
                          ++ r)%string)
             (snd (score_cofactor (description cj)
                                  (sequence_text (entity_sequence cj)))).
Proof.
  apply (complex_reasons no_repr
           (one_file "data/1ABC.json" null_id_record) "1ABC" "data"
           (mkResult "1ABC" true JNull (JStr "B")
              (Some "estrogen receptor") (Some "coactivator") f1_0
              ["Receptor (None): Specific NR: estrogen receptor";
               "Receptor (None): Specific NR: tr";
               "Cofactor (B): Coactivator keyword: nuclear receptor coactivator";
               "Cofactor (B): Coactivator keyword: activator";
               "Cofactor (B): Corepressor sequence motif 'LXXLL' found"])).
  - vm_compute. reflexivity.
  - reflexivity.
Defined.

Lemma failed_threshold_reason_last_witness :
  exists data chains i j ci cj best,
    load_pdb_data (one_file "data/1ABC.json" receptor_only_record)
                  "1ABC" "data" = Some data /\
    extract_chain_info data = Return chains /\
    nth_error chains i = Some ci /\
    nth_error chains j = Some cj /\
    i <> j /\
    pairing_search chains = Return best /\
    evaluate_pair ci cj = Return best /\
    ["Receptor (A): Specific NR: ppar";
     "Failed threshold check: NR_score(0.80) >= 0.5, Cofactor_score(0.00) >= 0.3"]
    = (map (fun r => ("Receptor (" ++ py_str no_repr (chain_id ci) ++ "): "
                        ++ r)%string)
           (nr_reasons best)
       ++ map (fun r => ("Cofactor (" ++ py_str no_repr (chain_id cj) ++ "): "
                           ++ r)%string)
              (cofactor_reasons best))
      ++ [("Failed threshold check: NR_score(" ++ format_2f (nr_score best)
           ++ ") >= 0.5, Cofactor_score("
           ++ format_2f (cofactor_score best) ++ ") >= 0.3")%string]
    /\ In (format_2f (nr_score best)) shown_receptor_scores
    /\ In (format_2f (cofactor_score best)) shown_cofactor_scores.
Proof.
  apply (failed_threshold_reason_last no_repr
           (one_file "data/1ABC.json" receptor_only_record) "1ABC" "data"
           (mkResult "1ABC" false (JStr "A") (JStr "B")
              (Some "ppar gamma") (Some "unknown")
              (div f0_8 f2_0)
              ["Receptor (A): Specific NR: ppar";
               "Failed threshold check: NR_score(0.80) >= 0.5, Cofactor_score(0.00) >= 0.3"])).
  - vm_compute. reflexivity.
  - reflexivity.
  - vm_compute. reflexivity.
Defined.


(* ================================================================== *)
(** * The penalty                                                      *)
(* ================================================================== *)

Lemma matched_generic_positive (d : string) :
  contains "nuclear receptor" d = true \/
  contains "steroid receptor" d = true ->
  1 <= List.length (matched generic_nr_terms d).
Proof.
  unfold matched, generic_nr_terms. cbn [filter].
  intros [H | H]; rewrite H.
  - cbn [List.length]. lia.
  - destruct (contains "nuclear receptor" d); cbn [List.length]; lia.
Qed.

(** X16: a receptor candidate whose description holds one of the two
    generic terms keeps a penalised receptor score of at least 0.5,
    whatever cofactor evidence the same chain carries: the penalty alone
    never takes such a chain below the receptor threshold.  The pair is
    scored when the two sequences are strings or false values. *)
Theorem generic_term_survives_penalty (r c : ChainInfo) :
  contains "nuclear receptor" (lower (description r)) = true \/
  contains "steroid receptor" (lower (description r)) = true ->
  usable_sequence (entity_sequence r) = true ->
  usable_sequence (entity_sequence c) = true ->
  exists v,
    evaluate_pair r c = Return v /\ geb (nr_score v) f0_5 = true.
Proof.
  intros Hgeneric Hr Hc. exists (pair_value r c).
  split; [exact (evaluate_pair_usable r c Hr Hc)|].
  apply matched_generic_positive in Hgeneric.
  rewrite pair_value_nr_score.
  destruct (score_nuclear_receptor_counts (description r))
    as [a [b [Ha [Hb [Ea [_ [Hscore _]]]]]]].
  rewrite Hscore. rewrite <- Ea in Hgeneric.
  pose proof (score_cofactor_values
                (description r) (sequence_text (entity_sequence r)))
    as Hpen.
  revert Hpen.
  generalize (fst (fst (score_cofactor
                          (description r)
                          (sequence_text (entity_sequence r))))).
  intros pen Hpen.
  pose proof (check_counts2
    (fun a b =>
       Nat.eqb a 0
       || forallb (fun pen => geb (sub (nr_clamped a b) (mul pen f0_5)) f0_5)
                  cofactor_score_values)
    2 35 ltac:(vm_compute; reflexivity) a b Ha Hb) as H.
  cbv beta in H. unfold nr_clamped in H.
  apply orb_true_iff in H as [H | H].
  - apply Nat.eqb_eq in H. lia.
  - rewrite forallb_forall in H. exact (H pen Hpen).
Qed.

Lemma generic_term_survives_penalty_witness :
  exists v,
    evaluate_pair
      (mkChainInfo (JStr "A") "nuclear receptor coactivator 2" "" JNull)
      (mkChainInfo (JStr "B") "nuclear receptor coactivator 2" "" (JStr ""))
    = Return v
    /\ geb (nr_score v) f0_5 = true.
Proof.
  apply (generic_term_survives_penalty
           (mkChainInfo (JStr "A") "nuclear receptor coactivator 2" "" JNull)
           (mkChainInfo (JStr "B") "nuclear receptor coactivator 2" ""
                        (JStr ""))).
  - left. vm_compute. reflexivity.
  - reflexivity.
  - reflexivity.
Defined.

(* ================================================================== *)
(** * [batch_classify]                                                 *)
(* ================================================================== *)

Section Batch.

Variable repr : json -> string.
Variables (fs : filesystem) (data_dir : string).

Let classified (id : string) (r : ClassificationResult) : Prop :=
  classify_complex repr fs id data_dir = Return r.

Lemma batch_loop (ids : list string)
    (acc out : list ClassificationResult) :
  for_each ids
    (fun results id =>
       result <- classify_complex repr fs id data_dir ;;
       Return (results ++ [result]))
    acc = Return out
  <-> exists rs, out = acc ++ rs /\ Forall2 classified ids rs.
Proof.
  revert acc. induction ids as [|id ids IH]; intros acc.
  - cbn [for_each]. split.
    + intros H. injection H as <-. exists []. rewrite app_nil_r.
      split; [reflexivity | constructor].
    + intros [rs [-> H]]. inversion H. now rewrite app_nil_r.
  - cbn [for_each]. unfold classified.
    destruct (classify_complex repr fs id data_dir) as [r|e] eqn:Hid;
      cbn [bind].
    + rewrite IH. split.
      * intros [rs [-> H]]. exists (r :: rs).
        rewrite <- app_assoc. split; [reflexivity|].
        constructor; assumption.
      * intros [rs [-> H]]. inversion H as [|? r' ? rs' Hr Hrs]; subst.
        unfold classified in Hr. rewrite Hid in Hr. injection Hr as <-.
        exists rs'. rewrite <- app_assoc. split; [reflexivity | exact Hrs].
    + split; [discriminate|].
      intros [rs [_ H]]. inversion H as [|? r' ? rs' Hr Hrs]; subst.
      unfold classified in Hr. rewrite Hid in Hr. discriminate.
Qed.

End Batch.

(** X17: [batch_classify] returns a list exactly when every identifier
    is classified without an exception, and the list then holds the
    result of each identifier, one per identifier and in the order of
    the identifiers. *)
Theorem batch_classify_results (repr : json -> string) (fs : filesystem)
    (pdb_ids : list string) (data_dir : string)
    (results : list ClassificationResult) :
  batch_classify repr fs pdb_ids data_dir = Return results <->
  Forall2 (fun id r => classify_complex repr fs id data_dir = Return r)
          pdb_ids results.
Proof.
  unfold batch_classify. rewrite batch_loop. split.
  - intros [rs [-> H]]. exact H.
  - intros H. exists results. split; [reflexivity | exact H].
Qed.

(** The first exception ends the batch. *)
Lemma batch_classify_raises (repr : json -> string) (fs : filesystem)
    (id : string) (rest : list string) (data_dir : string) (e : exn) :
  classify_complex repr fs id data_dir = Raise e ->
  batch_classify repr fs (id :: rest) data_dir = Raise e.
Proof.
  intros H. unfold batch_classify. cbn [for_each]. now rewrite H.
Qed.

(* ================================================================== *)
(** * The number of pairs                                              *)
(* ================================================================== *)

Section Counting.

Lemma filter_map_length {A B} (f : A -> bool) (h : B -> A) (l : list B) :
  List.length (filter f (map h l)) =
  List.length (filter (fun y => f (h y)) l).
Proof.
  induction l as [|y l IH]; [reflexivity|].
  cbn [map filter]. destruct (f (h y)); cbn [List.length]; now rewrite IH.
Qed.

Lemma filter_prod_length {A B} (f : A * B -> bool) (l1 : list A)
    (l2 : list B) :
  List.length (filter f (list_prod l1 l2)) =
  list_sum (map (fun x => List.length (filter (fun y => f (x, y)) l2)) l1).
Proof.
  induction l1 as [|x l1 IH]; [reflexivity|].
  cbn [list_prod map list_sum].
  now rewrite filter_app, length_app, IH, filter_map_length.
Qed.

Lemma others_in_combine_seq (l : list ChainInfo) (start i : nat) :
  List.length
    (filter (fun y : nat * ChainInfo => negb (Nat.eqb i (fst y)))
            (combine (seq start (List.length l)) l))
  = if Nat.leb start i && Nat.ltb i (start + List.length l)
    then List.length l - 1 else List.length l.
Proof.
  revert start. induction l as [|x l IH]; intros start.
  - cbn [List.length seq combine filter].
    now destruct (Nat.leb start i && Nat.ltb i (start + 0)).
  - cbn [List.length seq combine filter fst].
    destruct (Nat.eqb_spec i start) as [-> | Hne]; cbn [negb List.length];
      rewrite (IH (S start)).
    + replace (Nat.leb (S start) start) with false
        by (symmetry; apply Nat.leb_gt; lia).
      replace (Nat.leb start start) with true
        by (symmetry; apply Nat.leb_le; lia).
      replace (Nat.ltb start (start + S (List.length l))) with true
        by (symmetry; apply Nat.ltb_lt; lia).
      cbn [andb]. lia.
    + destruct (Nat.leb_spec (S start) i); destruct (Nat.leb_spec start i);
        try lia; cbn [andb];
        destruct (Nat.ltb_spec i (S start + List.length l));
        destruct (Nat.ltb_spec i (start + S (List.length l)));
        lia.
Qed.

Lemma list_sum_constant {A} (k : nat) (l : list A) :
  list_sum (map (fun _ => k) l) = List.length l * k.
Proof.
  induction l as [|x l IH]; [reflexivity|].
  cbn [map List.length].
  change (list_sum (k :: map (fun _ => k) l))
    with (k + list_sum (map (fun _ => k) l)).
  rewrite IH. lia.
Qed.

Lemma indexed_length (chains : list ChainInfo) :
  List.length (indexed chains) = List.length chains.
Proof.
  unfold indexed. rewrite length_combine, length_seq. apply Nat.min_id.
Qed.

End Counting.

Lemma valid_pairs_length (chains : list ChainInfo) :
  List.length (valid_pairs chains)
  = List.length chains * (List.length chains - 1).
Proof.
  unfold valid_pairs, candidate_pair. rewrite filter_prod_length.
  rewrite (map_ext_in _ (fun _ => List.length chains - 1)).
  - now rewrite list_sum_constant, indexed_length.
  - intros [i c] Hin. cbn [fst snd].
    apply in_indexed in Hin.
    assert (Hi : i < List.length chains)
      by (apply nth_error_Some; congruence).
    unfold indexed. rewrite others_in_combine_seq.
    replace (Nat.leb 0 i) with true by (symmetry; apply Nat.leb_le; lia).
    replace (Nat.ltb i (0 + List.length chains)) with true
      by (symmetry; apply Nat.ltb_lt; lia).
    reflexivity.
Qed.

(** X18: over [n] chains the search is one pass of the loop body over a
    list of exactly [n * (n - 1)] ordered pairs, and a pair of positions
    and chains is in that list exactly when the positions differ and
    hold these chains. *)
Theorem search_scores_every_ordered_pair (chains : list ChainInfo) :
  pairing_search chains =
    for_each (valid_pairs chains) consider_pair initial_best_pair
  /\ List.length (valid_pairs chains)
     = List.length chains * (List.length chains - 1)
  /\ forall i j r c,
       In ((i, r), (j, c)) (valid_pairs chains) <->
       nth_error chains i = Some r /\ nth_error chains j = Some c /\
       i <> j.
Proof.
  split; [apply pairing_search_scan|].
  split; [apply valid_pairs_length|].
  intros i j r c. apply in_valid_pairs.
Qed.

(* ================================================================== *)
(** * The reasons of the scorers                                       *)
(* ================================================================== *)

(** X7: the reasons of the nuclear-receptor scorer are the keywords of
    its table found in the lowercased description, one reason per table
    entry found and in table order, each labelled generic or specific;
    the reasons of the cofactor scorer are the coactivator keywords
    found, then the corepressor keywords found, then the motif reason
    when the sequence has the motif. *)
Theorem scorer_reasons (description sequence : string) :
  snd (score_nuclear_receptor description) =
    map nr_reason
        (filter (fun k => contains k (lower description)) nr_keywords)
  /\ snd (score_cofactor description sequence) =
    map (String.append "Coactivator keyword: ")
        (filter (fun k => contains k (lower description))
                coactivator_keywords)
    ++ map (String.append "Corepressor keyword: ")
           (filter (fun k => contains k (lower description))
                   corepressor_keywords)
    ++ (if nonempty sequence && re_search_LxxLL sequence
        then [motif_reason] else []).
Proof.
  split.
  - rewrite score_nuclear_receptor_matched. reflexivity.
  - unfold score_cofactor, cofactor_totals.
    rewrite keyword_totals_matched.
    destruct (nonempty sequence && re_search_LxxLL sequence);
      rewrite cofactor_verdict_reasons.
    + now rewrite <- app_assoc.
    + now rewrite app_nil_r.
Qed.
